(** * Gesture chord player: the finger-count classifier and the chord trigger

    A shallow embedding of the two programs of the repository,
    [main.py] (module [Main]) and [sample.py] (module [Sample]):
    the finger-counting heuristic over the 21 hand landmarks, and the
    logic that decides, frame after frame, when the mixer is stopped
    and when a chord is played.

    Conventions.
    - A landmark coordinate and a [time.time()] reading are Python
      floats; they are modelled as exact rationals ([Q]).  The
      classifier only compares coordinates, the trigger subtracts two
      readings and compares with the debounce time.
    - [pygame.time.get_ticks()] is an integer number of milliseconds: [Z].
    - [lm[i]] on a landmark list raises [IndexError] out of range:
      the classifiers return [option], [None] standing for the exception.
    - The calls made on the mixer are recorded as a list of [action]s,
      in program order. *)

From Stdlib Require Import QArith.
From stdpp Require Import base option list gmap strings.

Local Open Scope Z_scope.

(** ** Shared vocabulary *)

Module Landmark.
(** One detector keypoint, normalized image coordinates. *)
Record t : Type := Make { x : Q; y : Q }.
End Landmark.

(** [hand_landmarks.landmark]: the list the detector reports for one hand. *)
Abbreviation hand_landmarks := (list Landmark.t).

(** [lm[i].y], [None] when [i] is out of range. *)
Definition landmark_y (lm : hand_landmarks) (i : nat) : option Q :=
  Landmark.y <$> lm !! i.

(** [a < b] on coordinates and times, as a boolean. *)
Definition Qlt_bool (a b : Q) : bool := negb (Qle_bool b a).

(** The calls made on [pygame.mixer]: [pygame.mixer.stop()] and
    [<sound of class c>.play()]. *)
Inductive action : Type :=
| Stop
| Play (c : Z).

Global Instance action_eq_dec : EqDecision action.
Proof. solve_decision. Defined.

Definition is_play (a : action) : bool :=
  match a with Play _ => true | Stop => false end.

Definition is_stop (a : action) : bool :=
  match a with Stop => true | Play _ => false end.

(** Number of play calls, resp. stop calls, in a list of actions. *)
Definition count_plays (acts : list action) : nat := length (filter is_play acts).
Definition count_stops (acts : list action) : nat := length (filter is_stop acts).

(** ** main.py *)

Module Main.

(** *** Finger counting (lines 109-133) *)

Definition finger_tips : list nat := [8; 12; 16; 20]%nat.
Definition finger_pips : list nat := [6; 10; 14; 18]%nat.
Definition thumb_tip : nat := 4.
Definition thumb_ip : nat := 3.
Definition thumb_mcp : nat := 2.

(** The [for tip_id, pip_id in zip(finger_tips, finger_pips)] loop,
    threading the counter [fingers_up_count]. *)
Fixpoint count_loop (lm : hand_landmarks) (ids : list (nat * nat))
    (fingers_up_count : Z) : option Z :=
  match ids with
  | [] => Some fingers_up_count
  | (tip_id, pip_id) :: rest =>
      tip ← landmark_y lm tip_id;
      pip ← landmark_y lm pip_id;
      count_loop lm rest
        (if Qlt_bool tip pip then fingers_up_count + 1 else fingers_up_count)
  end.

(** The whole finger-counting block: the four fingers, then the thumb.
    Python's [and] evaluates its right operand only when the left one
    holds. *)
Definition count_fingers (lm : hand_landmarks) : option Z :=
  fingers_up_count ← count_loop lm (zip finger_tips finger_pips) 0;
  tip ← landmark_y lm thumb_tip;
  ip ← landmark_y lm thumb_ip;
  if Qlt_bool tip ip then
    tip' ← landmark_y lm thumb_tip;
    mcp ← landmark_y lm thumb_mcp;
    Some (if Qlt_bool tip' mcp then fingers_up_count + 1 else fingers_up_count)
  else Some fingers_up_count.

(** *** Startup (lines 13-62 and 73-77) *)

Definition finger_chord_map : list (Z * string) :=
  [ (1, "C_chord.wav"); (2, "Am_chord.wav"); (3, "F_chord.wav");
    (4, "G_chord.wav"); (5, "C_chord.wav") ]%string.

(** What the program finds when it starts: whether
    [pygame.mixer.init()] succeeded, and which audio files exist and
    load as a [pygame.mixer.Sound]. *)
Record env : Type := Env {
  pygame_mixer_ok : bool;
  loads : string → bool
}.

(** The dictionary [chord_sounds]: filled from [finger_chord_map]
    only when the mixer is available, with the files that load.  A
    sound is identified by its file name. *)
Definition chord_sounds (e : env) : gmap Z string :=
  if pygame_mixer_ok e then
    foldl (λ sounds '(fingers, filename),
             if loads e filename then <[fingers := filename]> sounds
             else sounds)
          ∅ finger_chord_map
  else ∅.

Definition debounce_time : Q := 3 # 10.

(** The state variables of the main loop. *)
Record state : Type := State {
  last_played_fingers : Z;
  last_sound_play_time : Q
}.

Definition initial_state : state :=
  {| last_played_fingers := -1; last_sound_play_time := 0 |}.

(** *** Chord playing logic (lines 149-173)

    [hand] is the truth value of [results.multi_hand_landmarks]. *)
Definition chord_logic (e : env) (st : state) (hand : bool)
    (fingers_up_count : Z) (current_time : Q) : state * list action :=
  if negb (fingers_up_count =? last_played_fingers st) && pygame_mixer_ok e then
    if Qlt_bool debounce_time (current_time - last_sound_play_time st) then
      match chord_sounds e !! fingers_up_count with
      | Some _ =>
          ({| last_played_fingers := fingers_up_count;
              last_sound_play_time := current_time |},
           [Stop; Play fingers_up_count])
      | None =>
          ({| last_played_fingers := 0;
              last_sound_play_time := last_sound_play_time st |},
           [Stop])
      end
    else (st, [])
  else if negb hand && negb (last_played_fingers st =? -1) then
    ({| last_played_fingers := -1;
        last_sound_play_time := last_sound_play_time st |},
     if pygame_mixer_ok e then [Stop] else [])
  else (st, []).

(** What one frame tells the trigger.  Without a hand the counter
    keeps its initial value 0 (line 100). *)
Inductive event : Type :=
| HandPresent (c : Z) (t : Q)
| HandAbsent (t : Q).

(** The finger count an event carries into the chord logic. *)
Definition classification (ev : event) : Z :=
  match ev with
  | HandPresent c _ => c
  | HandAbsent _ => 0
  end.

Definition step (e : env) (st : state) (ev : event) : state * list action :=
  match ev with
  | HandPresent c t => chord_logic e st true c t
  | HandAbsent t => chord_logic e st false 0 t
  end.

(** The trigger over a sequence of events: final state and the
    actions of each step. *)
Fixpoint run (e : env) (st : state) (evs : list event)
    : state * list (list action) :=
  match evs with
  | [] => (st, [])
  | ev :: rest =>
      let '(st1, acts) := step e st ev in
      let '(st2, trace) := run e st1 rest in
      (st2, acts :: trace)
  end.

(** *** One iteration of the main loop on a frame that was read

    [frame] is the first detected hand, if any; the result also
    carries the count shown on screen ([Fingers: n]).  [None] when
    the finger counting raises.  The drawing of the hand on the image
    (lines 141-147), between the counting and the chord logic, is a
    call into the drawing library and is left out: it draws the 21
    landmarks of a hand and does not take a hand of more. *)
Definition loop_body (e : env) (st : state) (frame : option hand_landmarks)
    (current_time : Q) : option (state * list action * Z) :=
  fingers_up_count ←
    match frame with
    | Some lm => count_fingers lm
    | None => Some 0
    end;
  let '(st', acts) :=
    chord_logic e st (bool_decide (is_Some frame)) fingers_up_count current_time in
  Some (st', acts, fingers_up_count).

Fixpoint main_loop (e : env) (st : state)
    (frames : list (option hand_landmarks * Q))
    : option (state * list (list action * Z)) :=
  match frames with
  | [] => Some (st, [])
  | (frame, current_time) :: rest =>
      '(st1, acts, shown) ← loop_body e st frame current_time;
      '(st2, out) ← main_loop e st1 rest;
      Some (st2, (acts, shown) :: out)
  end.

End Main.

(** ** sample.py *)

Module Sample.

(** The fields of a [GestureChordPlayer] that the chord logic uses.
    A sound is identified by its file name. *)
Record player : Type := Player {
  chords : gmap Z string;
  last_played_chord : option Z;
  chord_cooldown : Z;
  last_play_time : Z
}.

(** [__init__] (lines 23-33). *)
Definition init : player :=
  {| chords := {[ 1 := "C_chord.wav"; 2 := "Am_chord.wav";
                  3 := "F_chord.wav"; 4 := "G_chord.wav" ]}%string;
     last_played_chord := None;
     chord_cooldown := 1000;
     last_play_time := 0 |}.

(** [INDEX_FINGER_TIP], [MIDDLE_FINGER_TIP], [RING_FINGER_TIP], [PINKY_TIP]. *)
Definition finger_tips : list nat := [8; 12; 16; 20]%nat.

(** The loop of [count_extended_fingers], threading [extended_fingers]. *)
Fixpoint count_loop (lm : hand_landmarks) (tips : list nat)
    (extended_fingers : Z) : option Z :=
  match tips with
  | [] => Some extended_fingers
  | tip :: rest =>
      tip_y ← landmark_y lm tip;
      middle_y ← landmark_y lm (tip - 2);
      count_loop lm rest
        (if Qlt_bool tip_y middle_y then extended_fingers + 1
         else extended_fingers)
  end.

Definition count_extended_fingers (lm : hand_landmarks) : option Z :=
  count_loop lm finger_tips 0.

(** [play_chord]; [current_time] is the reading of
    [pygame.time.get_ticks()]. *)
Definition play_chord (self : player) (num_fingers : Z) (current_time : Z)
    : player * list action :=
  if bool_decide (is_Some (chords self !! num_fingers))
     && (negb (bool_decide (last_played_chord self = Some num_fingers))
         || (chord_cooldown self <? current_time - last_play_time self))
  then
    ({| chords := chords self;
        last_played_chord := Some num_fingers;
        chord_cooldown := chord_cooldown self;
        last_play_time := current_time |},
     [Stop; Play num_fingers])
  else (self, []).

(** What one frame tells the player: a hand with its finger count
    and the clock reading taken in [play_chord], or no hand. *)
Inductive event : Type :=
| HandPresent (c : Z) (t : Z)
| HandAbsent.

(** Lines 119-130 of [run] for one hand, resp. for a frame without
    hand, where the body of the loop over the hands does not run. *)
Definition step (self : player) (ev : event) : player * list action :=
  match ev with
  | HandPresent num_fingers t =>
      if 0 <? num_fingers then play_chord self num_fingers t else (self, [])
  | HandAbsent => (self, [])
  end.

Fixpoint run (self : player) (evs : list event) : player * list (list action) :=
  match evs with
  | [] => (self, [])
  | ev :: rest =>
      let '(self1, acts) := step self ev in
      let '(self2, trace) := run self1 rest in
      (self2, acts :: trace)
  end.

(** The body of the frame loop of [run]: every hand of
    [results.multi_hand_landmarks] is counted and handed to
    [play_chord], each with its own clock reading.  [None] when the
    counting raises. *)
Fixpoint process_hands (self : player) (hands : list (hand_landmarks * Z))
    : option (player * list action) :=
  match hands with
  | [] => Some (self, [])
  | (lm, t) :: rest =>
      num_fingers ← count_extended_fingers lm;
      let '(self1, acts) := step self (HandPresent num_fingers t) in
      '(self2, acts') ← process_hands self1 rest;
      Some (self2, acts ++ acts')
  end.

Fixpoint frame_loop (self : player) (frames : list (list (hand_landmarks * Z)))
    : option (player * list (list action)) :=
  match frames with
  | [] => Some (self, [])
  | hands :: rest =>
      '(self1, acts) ← process_hands self hands;
      '(self2, trace) ← frame_loop self1 rest;
      Some (self2, acts :: trace)
  end.

End Sample.

(** ** The mixer, as the programs use it

    [pygame.mixer.stop()] halts every channel; [play()] starts the
    sound on a free channel next to what is already sounding.  The
    list holds the classes started and not stopped since: a sound that
    ends by itself leaves the mixer but not the list, so the list is
    an upper bound of what sounds. *)
Definition mixer_apply (playing : list Z) (a : action) : list Z :=
  match a with
  | Stop => []
  | Play c => c :: playing
  end.

Definition mixer_run (playing : list Z) (acts : list action) : list Z :=
  foldl mixer_apply playing acts.

(** Every play call of [acts] comes right after a stop call of [acts]. *)
Definition stop_before_play (acts : list action) : Prop :=
  ∀ (i : nat) (c : Z), acts !! i = Some (Play c) →
    ∃ j : nat, i = S j ∧ acts !! j = Some Stop.

(** ** The classifier as the specification words it

    A finger other than the thumb is extended when its tip lies above
    its PIP joint (smaller y); the thumb when its tip lies above both
    its IP and its MCP joint.  The classification is the number of
    extended fingers. *)
Module ClassifierSpec.

Inductive finger : Type := Thumb | Index | Middle | Ring | Pinky.

Definition fingers : list finger := [Thumb; Index; Middle; Ring; Pinky].

Definition tip (f : finger) : nat :=
  match f with
  | Thumb => 4 | Index => 8 | Middle => 12 | Ring => 16 | Pinky => 20
  end.

Definition pip (f : finger) : nat := (tip f - 2)%nat.

(** The vertical coordinate of the landmark of index [i]; the default
    is never used on 21 points. *)
Definition y_at (lm : hand_landmarks) (i : nat) : Q :=
  Landmark.y (nth i lm (Landmark.Make 0 0)).

Definition extended (lm : hand_landmarks) (f : finger) : bool :=
  match f with
  | Thumb =>
      Qlt_bool (y_at lm 4) (y_at lm 3) && Qlt_bool (y_at lm 4) (y_at lm 2)
  | _ => Qlt_bool (y_at lm (tip f)) (y_at lm (pip f))
  end.

Definition extended_count (lm : hand_landmarks) : Z :=
  Z.of_nat (length (filter (λ f, extended lm f = true) fingers)).

(** The same count without the thumb. *)
Definition non_thumb : list finger := [Index; Middle; Ring; Pinky].

Definition non_thumb_count (lm : hand_landmarks) : Z :=
  Z.of_nat (length (filter (λ f, extended lm f = true) non_thumb)).

End ClassifierSpec.

(** ** The loop of main.py around the frame body (lines 81-87 and 184-187) *)

Module MainSession.

(** What one iteration gets: a failed [cap.read()], or a frame with
    its clock reading and the code [cv2.waitKey(5)] returns (-1 when
    no key was pressed). *)
Inductive capture : Type :=
| ReadFailed
| Captured (frame : option hand_landmarks) (current_time : Q) (key : Z).

(** [cv2.waitKey(5) & 0xFF == ord('q')]. *)
Definition quit_key (key : Z) : bool := Z.land key 255 =? 113.

(** The [while cap.isOpened()] loop over what the camera delivers
    until it is closed: a failed read is skipped with [continue], the
    quit key leaves the loop after its frame was handled. *)
Fixpoint session (e : Main.env) (st : Main.state) (caps : list capture)
    : option (Main.state * list (list action * Z)) :=
  match caps with
  | [] => Some (st, [])
  | ReadFailed :: rest => session e st rest
  | Captured frame current_time key :: rest =>
      '(st1, acts, shown) ← Main.loop_body e st frame current_time;
      if quit_key key then Some (st1, [(acts, shown)])
      else
        '(st2, out) ← session e st1 rest;
        Some (st2, (acts, shown) :: out)
  end.

(** The frames that were read, up to the one with the quit key. *)
Fixpoint frames_handled (caps : list capture)
    : list (option hand_landmarks * Q) :=
  match caps with
  | [] => []
  | ReadFailed :: rest => frames_handled rest
  | Captured frame current_time key :: rest =>
      (frame, current_time)
        :: (if quit_key key then [] else frames_handled rest)
  end.

(** The event a frame is for the chord logic; [None] when the finger
    counting raises. *)
Definition event_of (f : option hand_landmarks * Q) : option Main.event :=
  match f.1 with
  | Some lm => c ← Main.count_fingers lm; Some (Main.HandPresent c f.2)
  | None => Some (Main.HandAbsent f.2)
  end.

End MainSession.

(** ** The loop of [run] in sample.py (lines 82-87 and 102-138) *)

Module SampleSession.

(** What happens to the loop: a signal runs [handle_exit], which sets
    [should_exit]; a read fails; or a frame is read, with its hands
    and the code [cv2.waitKey(5)] returns.  The flag is read at the
    head of the loop only, so a signal counts from the next iteration. *)
Inductive input : Type :=
| Signal
| ReadFailed
| Captured (hands : list (hand_landmarks * Z)) (key : Z).

(** [cv2.waitKey(5) & 0xFF], compared with 27 (ESC). *)
Definition esc_key (key : Z) : bool := Z.land key 255 =? 27.

(** The [while cap.isOpened() and not self.should_exit] loop: it ends
    when the flag is set, on a failed read ([break]) and after the
    frame with the ESC key. *)
Fixpoint run_loop (self : Sample.player) (should_exit : bool)
    (inputs : list input) : option (Sample.player * list (list action)) :=
  match inputs with
  | [] => Some (self, [])
  | Signal :: rest => run_loop self true rest
  | ReadFailed :: rest => Some (self, [])
  | Captured hands key :: rest =>
      if should_exit then Some (self, [])
      else
        '(self1, acts) ← Sample.process_hands self hands;
        if esc_key key then Some (self1, [acts])
        else
          '(self2, trace) ← run_loop self1 false rest;
          Some (self2, acts :: trace)
  end.

End SampleSession.

(** ** Observations on a run *)

Definition main_event_time (ev : Main.event) : Q :=
  match ev with
  | Main.HandPresent _ t => t
  | Main.HandAbsent t => t
  end.

(** The times of the events of main.py whose step plays a chord. *)
Definition main_play_times (evs : list Main.event) (trace : list (list action))
    : list Q :=
  omap (λ '(ev, acts),
          if bool_decide (count_plays acts = 0%nat) then None
          else Some (main_event_time ev))
       (zip evs trace).

(** Each time of [ts] comes more than [gap] after the one before it,
    the first one after [last]. *)
Fixpoint spaced (gap last : Q) (ts : list Q) : Prop :=
  match ts with
  | [] => True
  | t :: rest => (gap < t - last)%Q ∧ spaced gap t rest
  end.

(** The plays of a list of actions of sample.py made at time [t]. *)
Definition plays_at (t : Z) (acts : list action) : list (Z * Z) :=
  omap (λ a, match a with Play c => Some (c, t) | Stop => None end) acts.

(** The plays (class, time) of a run of sample.py. *)
Definition sample_plays (evs : list Sample.event) (trace : list (list action))
    : list (Z * Z) :=
  mjoin ((λ '(ev, acts),
            match ev with
            | Sample.HandPresent _ t => plays_at t acts
            | Sample.HandAbsent => []
            end) <$> zip evs trace).

(** Each play is of another class than the play before it, or comes
    more than [cooldown] after it; [last] and [last_time] stand for
    the play before the first one. *)
Fixpoint cooled (cooldown : Z) (last : option Z) (last_time : Z)
    (plays : list (Z * Z)) : Prop :=
  match plays with
  | [] => True
  | (c, t) :: rest =>
      (last ≠ Some c ∨ cooldown < t - last_time)
      ∧ cooled cooldown (Some c) t rest
  end.

(** The event a hand of a frame is for the player of sample.py;
    [None] when the finger counting raises. *)
Definition sample_event_of (h : hand_landmarks * Z) : option Sample.event :=
  num_fingers ← Sample.count_extended_fingers h.1;
  Some (Sample.HandPresent num_fingers h.2).

(** ** Concrete inputs *)

(** The all-extended hand: every tip at height 0, every joint at height 1. *)
Definition open_hand : hand_landmarks :=
  (λ i : nat,
     Landmark.Make 0 (if bool_decide (i ∈ [4; 8; 12; 16; 20]%nat) then 0 else 1))
    <$> seq 0 21.

(** The open hand moved sideways, with its wrist lowered and a 22nd point. *)
Definition open_hand_moved : hand_landmarks :=
  Landmark.Make 7 9
    :: ((λ p, Landmark.Make (Landmark.x p + 1) (Landmark.y p)) <$> tail open_hand)
    ++ [Landmark.Make 0 0].

(** A startup of main.py where the mixer and every file are there, and
    one where the mixer failed. *)
Definition all_loaded : Main.env :=
  {| Main.pygame_mixer_ok := true; Main.loads := λ _, true |}.

Definition no_mixer : Main.env :=
  {| Main.pygame_mixer_ok := false; Main.loads := λ _, true |}.

(** main.py with nothing played and the last play one second before
    time 0, resp. with class [c] played at time [since]. *)
Definition main_idle : Main.state :=
  {| Main.last_played_fingers := -1; Main.last_sound_play_time := -1 |}.

Definition main_sounding (c : Z) (since : Q) : Main.state :=
  {| Main.last_played_fingers := c; Main.last_sound_play_time := since |}.

(** The player of sample.py with a cooldown of 300 ms, nothing played. *)
Definition sample_idle : Sample.player :=
  {| Sample.chords := Sample.chords Sample.init;
     Sample.last_played_chord := None;
     Sample.chord_cooldown := 300;
     Sample.last_play_time := 0 |}.

Definition sample_sounding (c : Z) (since : Z) : Sample.player :=
  {| Sample.chords := Sample.chords Sample.init;
     Sample.last_played_chord := Some c;
     Sample.chord_cooldown := 300;
     Sample.last_play_time := since |}.

(** Class 1 at 0 s, class 1 at 0.1 s, class 2 at 0.2 s, a hand in
    every frame: in seconds for main.py, in milliseconds for sample.py. *)
Definition main_scenario : list Main.event :=
  [Main.HandPresent 1 0; Main.HandPresent 1 (1 # 10); Main.HandPresent 2 (2 # 10)].

Definition sample_scenario : list Sample.event :=
  [Sample.HandPresent 1 0; Sample.HandPresent 1 100; Sample.HandPresent 2 200].

(** The trace the specification gives for the scenario: play(1),
    nothing, then stop and play(2). *)
Definition scenario_trace_as_specified : list (list action) :=
  [[Play 1]; []; [Stop; Play 2]].

(** * Properties *)

(** ** Reading landmarks *)

Lemma landmark_y_lt (lm : hand_landmarks) (i : nat) :
  (i < length lm)%nat → landmark_y lm i = Some (ClassifierSpec.y_at lm i).
Proof.
  intros Hi. unfold ClassifierSpec.y_at, landmark_y.
  destruct (lookup_lt_is_Some_2 lm i Hi) as [p Hp].
  by rewrite Hp, (nth_lookup_Some lm i _ p Hp).
Qed.

Lemma landmark_y_ge (lm : hand_landmarks) (i : nat) :
  (length lm ≤ i)%nat → landmark_y lm i = None.
Proof.
  intros Hi. unfold landmark_y. by rewrite lookup_ge_None_2.
Qed.

(** The counting loops only add to the counter, at most one per finger. *)
Lemma main_count_loop_bounds (lm : hand_landmarks) (ids : list (nat * nat)) :
  ∀ acc n, Main.count_loop lm ids acc = Some n →
    acc ≤ n ≤ acc + Z.of_nat (length ids).
Proof.
  induction ids as [|[tip_id pip_id] rest IH]; intros acc n H; simpl in H.
  - injection H as <-. simpl. lia.
  - destruct (landmark_y lm tip_id) as [tip|]; [|discriminate].
    destruct (landmark_y lm pip_id) as [pip|]; [|discriminate].
    simpl in H. apply IH in H.
    destruct (Qlt_bool tip pip); simpl length; lia.
Qed.

Lemma sample_count_loop_bounds (lm : hand_landmarks) (tips : list nat) :
  ∀ acc n, Sample.count_loop lm tips acc = Some n →
    acc ≤ n ≤ acc + Z.of_nat (length tips).
Proof.
  induction tips as [|tip rest IH]; intros acc n H; simpl in H.
  - injection H as <-. simpl. lia.
  - destruct (landmark_y lm tip) as [tip_y|]; [|discriminate].
    destruct (landmark_y lm (tip - 2)) as [middle_y|]; [|discriminate].
    simpl in H. apply IH in H.
    destruct (Qlt_bool tip_y middle_y); simpl length; lia.
Qed.

(** On 21 points the finger counting of main.py does not raise and
    agrees with the count of extended fingers. *)
Lemma main_count_fingers_21 (lm : hand_landmarks) :
  length lm = 21%nat →
  Main.count_fingers lm = Some (ClassifierSpec.extended_count lm).
Proof.
  intros Hlen.
  unfold Main.count_fingers, Main.finger_tips, Main.finger_pips,
    Main.thumb_tip, Main.thumb_ip, Main.thumb_mcp.
  simpl zip. simpl Main.count_loop.
  rewrite !landmark_y_lt by lia. simpl.
  unfold ClassifierSpec.extended_count, ClassifierSpec.fingers.
  rewrite !filter_cons, filter_nil.
  cbn [ClassifierSpec.extended ClassifierSpec.tip ClassifierSpec.pip Nat.sub].
  destruct (Qlt_bool (ClassifierSpec.y_at lm 8) (ClassifierSpec.y_at lm 6));
  destruct (Qlt_bool (ClassifierSpec.y_at lm 12) (ClassifierSpec.y_at lm 10));
  destruct (Qlt_bool (ClassifierSpec.y_at lm 16) (ClassifierSpec.y_at lm 14));
  destruct (Qlt_bool (ClassifierSpec.y_at lm 20) (ClassifierSpec.y_at lm 18));
  destruct (Qlt_bool (ClassifierSpec.y_at lm 4) (ClassifierSpec.y_at lm 3));
  destruct (Qlt_bool (ClassifierSpec.y_at lm 4) (ClassifierSpec.y_at lm 2));
  reflexivity.
Qed.

Lemma extended_count_bounds (lm : hand_landmarks) :
  0 ≤ ClassifierSpec.extended_count lm ≤ 5.
Proof.
  unfold ClassifierSpec.extended_count.
  pose proof (length_filter (λ f, ClassifierSpec.extended lm f = true)
                ClassifierSpec.fingers) as Hle.
  simpl in Hle. lia.
Qed.

(** On 21 points the finger counting of sample.py does not raise and
    agrees with the count of extended fingers other than the thumb. *)
Lemma sample_count_fingers_21 (lm : hand_landmarks) :
  length lm = 21%nat →
  Sample.count_extended_fingers lm = Some (ClassifierSpec.non_thumb_count lm).
Proof.
  intros Hlen.
  unfold Sample.count_extended_fingers, Sample.finger_tips.
  simpl Sample.count_loop.
  rewrite !landmark_y_lt by lia. simpl.
  unfold ClassifierSpec.non_thumb_count, ClassifierSpec.non_thumb.
  rewrite !filter_cons, filter_nil.
  cbn [ClassifierSpec.extended ClassifierSpec.tip ClassifierSpec.pip Nat.sub].
  destruct (Qlt_bool (ClassifierSpec.y_at lm 8) (ClassifierSpec.y_at lm 6));
  destruct (Qlt_bool (ClassifierSpec.y_at lm 12) (ClassifierSpec.y_at lm 10));
  destruct (Qlt_bool (ClassifierSpec.y_at lm 16) (ClassifierSpec.y_at lm 14));
  destruct (Qlt_bool (ClassifierSpec.y_at lm 20) (ClassifierSpec.y_at lm 18));
  reflexivity.
Qed.

Lemma non_thumb_count_bounds (lm : hand_landmarks) :
  0 ≤ ClassifierSpec.non_thumb_count lm ≤ 4.
Proof.
  unfold ClassifierSpec.non_thumb_count.
  pose proof (length_filter (λ f, ClassifierSpec.extended lm f = true)
                ClassifierSpec.non_thumb) as Hle.
  simpl in Hle. lia.
Qed.

(** A filter that keeps every element, resp. none. *)
Lemma filter_all {A} (P : A → Prop) `{!∀ x, Decision (P x)} (l : list A) :
  (∀ x, x ∈ l → P x) → filter P l = l.
Proof.
  induction l as [|a l IH]; intros Hall; [done|].
  rewrite filter_cons, decide_True by (apply Hall; left).
  f_equal. apply IH. intros x Hx. apply Hall. by right.
Qed.

Lemma filter_none {A} (P : A → Prop) `{!∀ x, Decision (P x)} (l : list A) :
  (∀ x, x ∈ l → ¬ P x) → filter P l = [].
Proof.
  induction l as [|a l IH]; intros Hnone; [done|].
  rewrite filter_cons, decide_False by (apply Hnone; left).
  apply IH. intros x Hx. apply Hnone. by right.
Qed.

(** ** C7: the two classifiers *)

(** C7, as the specification has it, fails on sample.py: on the open
    hand, 21 points on which all five comparisons indicate extension,
    main.py counts 5 and sample.py counts 4. *)
Lemma open_hand_counterexample :
  length open_hand = 21%nat
  ∧ (∀ f, ClassifierSpec.extended open_hand f = true)
  ∧ Main.count_fingers open_hand = Some 5
  ∧ Sample.count_extended_fingers open_hand = Some 4
  ∧ Sample.count_extended_fingers open_hand ≠ Some 5.
Proof.
  split; [reflexivity|]. split; [by intros []|].
  split; [reflexivity|]. split; [reflexivity|]. discriminate.
Qed.

(** C7, amended. On a landmark list of 21 points the finger counting
    of main.py returns (it does not raise) the number of extended
    fingers, a number between 0 and 5, where a finger other than the
    thumb is extended iff its tip's y is smaller than its PIP joint's
    y and the thumb iff its tip's y is smaller than both its IP
    joint's and its MCP joint's; it is 5 when all five fingers are
    extended and 0 when none is.  The counting of sample.py returns
    the number of extended fingers other than the thumb, a number
    between 0 and 4: 4 when these four are extended and 0 when none of
    them is. *)
Theorem count_fingers_extended (lm : hand_landmarks)
    (Hlen : length lm = 21%nat) :
  (∃ n : Z,
     Main.count_fingers lm = Some n
     ∧ n = ClassifierSpec.extended_count lm
     ∧ 0 ≤ n ≤ 5
     ∧ ((∀ f, ClassifierSpec.extended lm f = true) → n = 5)
     ∧ ((∀ f, ClassifierSpec.extended lm f = false) → n = 0))
  ∧ (∃ s : Z,
       Sample.count_extended_fingers lm = Some s
       ∧ s = ClassifierSpec.non_thumb_count lm
       ∧ 0 ≤ s ≤ 4
       ∧ ((∀ f, f ≠ ClassifierSpec.Thumb → ClassifierSpec.extended lm f = true) →
          s = 4)
       ∧ ((∀ f, f ≠ ClassifierSpec.Thumb → ClassifierSpec.extended lm f = false) →
          s = 0)).
Proof.
  split.
  - exists (ClassifierSpec.extended_count lm).
    split; [by apply main_count_fingers_21|]. split; [reflexivity|].
    split; [apply extended_count_bounds|].
    unfold ClassifierSpec.extended_count.
    split.
    + intros Hall. by rewrite filter_all by (intros f _; apply Hall).
    + intros Hnone. rewrite filter_none; [done|].
      intros f _. by rewrite Hnone.
  - exists (ClassifierSpec.non_thumb_count lm).
    split; [by apply sample_count_fingers_21|]. split; [reflexivity|].
    split; [apply non_thumb_count_bounds|].
    unfold ClassifierSpec.non_thumb_count, ClassifierSpec.non_thumb.
    split.
    + intros Hall. rewrite filter_all; [done|].
      intros f Hf. apply Hall. intros ->.
      rewrite !elem_of_cons, elem_of_nil in Hf.
      by destruct Hf as [?|[?|[?|[?|[]]]]].
    + intros Hnone. rewrite filter_none; [done|].
      intros f Hf. rewrite Hnone; [done|]. intros ->.
      rewrite !elem_of_cons, elem_of_nil in Hf.
      by destruct Hf as [?|[?|[?|[?|[]]]]].
Qed.

Lemma count_fingers_extended_witness :
  Main.count_fingers open_hand = Some 5
  ∧ Sample.count_extended_fingers open_hand = Some 4.
Proof.
  destruct (count_fingers_extended open_hand)
    as [(n & Hn & _ & _ & Hfive & _) (s & Hs & _ & _ & Hfour & _)];
    [reflexivity|].
  rewrite Hn, Hs, Hfive, Hfour; [done| |]; by intros [].
Defined.

(** ** Comparing times *)

Lemma Qlt_bool_true (a b : Q) : Qlt_bool a b = true ↔ (a < b)%Q.
Proof.
  unfold Qlt_bool. rewrite negb_true_iff, <- not_true_iff_false, Qle_bool_iff.
  split; [apply Qnot_le_lt | apply Qlt_not_le].
Qed.

Lemma Qlt_bool_false (a b : Q) : Qlt_bool a b = false ↔ (b <= a)%Q.
Proof.
  unfold Qlt_bool. rewrite negb_false_iff. apply Qle_bool_iff.
Qed.

(** ** The chord table of main.py *)

(** Only the classes 1 to 5 of [finger_chord_map] can be in [chord_sounds]. *)
Lemma main_chord_sounds_keys (e : Main.env) (c : Z) :
  is_Some (Main.chord_sounds e !! c) → 1 ≤ c ≤ 5.
Proof.
  unfold Main.chord_sounds, Main.finger_chord_map. simpl foldl.
  destruct (Main.pygame_mixer_ok e); [|rewrite lookup_empty; by intros [? ?]].
  intros Hc.
  destruct (decide (1 ≤ c ≤ 5)) as [|Hout]; [done|]. exfalso.
  revert Hc.
  repeat match goal with |- context [if ?b then _ else _] => destruct b end;
    rewrite ?lookup_insert_ne, lookup_empty by lia; by intros [? ?].
Qed.

Lemma main_chord_sounds_zero (e : Main.env) : Main.chord_sounds e !! 0 = None.
Proof.
  destruct (Main.chord_sounds e !! 0) as [s|] eqn:H0; [|done].
  pose proof (main_chord_sounds_keys e 0 (mk_is_Some _ _ H0)). lia.
Qed.

(** Without a mixer no sound is loaded. *)
Lemma main_chord_sounds_no_mixer (e : Main.env) (c : Z) :
  Main.pygame_mixer_ok e = false → Main.chord_sounds e !! c = None.
Proof. intros H. unfold Main.chord_sounds. by rewrite H, lookup_empty. Qed.

(** ** The shape of one step *)

(** What a step of main.py can emit. *)
Lemma main_chord_logic_actions (e : Main.env) (st : Main.state) (hand : bool)
    (c : Z) (t : Q) :
  (Main.chord_logic e st hand c t).2 = []
  ∨ (Main.chord_logic e st hand c t).2 = [Stop]
  ∨ ((Main.chord_logic e st hand c t).2 = [Stop; Play c]
     ∧ is_Some (Main.chord_sounds e !! c)).
Proof.
  unfold Main.chord_logic.
  destruct (negb (c =? Main.last_played_fingers st) && Main.pygame_mixer_ok e).
  - destruct (Qlt_bool _ _); [|by left].
    destruct (Main.chord_sounds e !! c) eqn:Hc; simpl; eauto.
  - destruct (negb hand && negb (Main.last_played_fingers st =? -1)); [|by left].
    destruct (Main.pygame_mixer_ok e); simpl; eauto.
Qed.

Lemma main_step_actions (e : Main.env) (st : Main.state) (ev : Main.event) :
  (Main.step e st ev).2 = []
  ∨ (Main.step e st ev).2 = [Stop]
  ∨ ((Main.step e st ev).2 = [Stop; Play (Main.classification ev)]
     ∧ is_Some (Main.chord_sounds e !! Main.classification ev)).
Proof. destruct ev; apply main_chord_logic_actions. Qed.

(** What [play_chord] and a step of sample.py can emit. *)
Lemma sample_play_chord_actions (self : Sample.player) (c t : Z) :
  (Sample.play_chord self c t).2 = []
  ∨ ((Sample.play_chord self c t).2 = [Stop; Play c]
     ∧ is_Some (Sample.chords self !! c)).
Proof.
  unfold Sample.play_chord.
  destruct (bool_decide (is_Some (Sample.chords self !! c))) eqn:Hc; simpl;
    [|by left].
  apply bool_decide_eq_true in Hc.
  destruct (_ || _); simpl; eauto.
Qed.

Lemma sample_step_actions (self : Sample.player) (ev : Sample.event) :
  (Sample.step self ev).2 = []
  ∨ ∃ c t, ev = Sample.HandPresent c t ∧ 0 < c
           ∧ is_Some (Sample.chords self !! c)
           ∧ (Sample.step self ev).2 = [Stop; Play c].
Proof.
  destruct ev as [c t|]; simpl; [|by left].
  destruct (0 <? c) eqn:Hpos; [|by left].
  apply Z.ltb_lt in Hpos.
  destruct (sample_play_chord_actions self c t) as [H|[H Hc]]; [by left|].
  right. by exists c, t.
Qed.

Lemma sample_step_chords (self : Sample.player) (ev : Sample.event) :
  Sample.chords (Sample.step self ev).1 = Sample.chords self.
Proof.
  destruct ev as [c t|]; simpl; [|done].
  destruct (0 <? c); [|done].
  unfold Sample.play_chord. by destruct (_ && _).
Qed.

(** Unfolding the runs. *)
Lemma main_run_cons (e : Main.env) (st : Main.state) (ev : Main.event)
    (evs : list Main.event) :
  Main.run e st (ev :: evs)
  = ((Main.run e (Main.step e st ev).1 evs).1,
     (Main.step e st ev).2 :: (Main.run e (Main.step e st ev).1 evs).2).
Proof.
  simpl. destruct (Main.step e st ev) as [st1 acts]. simpl.
  by destruct (Main.run e st1 evs).
Qed.

Lemma sample_run_cons (self : Sample.player) (ev : Sample.event)
    (evs : list Sample.event) :
  Sample.run self (ev :: evs)
  = ((Sample.run (Sample.step self ev).1 evs).1,
     (Sample.step self ev).2 :: (Sample.run (Sample.step self ev).1 evs).2).
Proof.
  simpl. destruct (Sample.step self ev) as [self1 acts]. simpl.
  by destruct (Sample.run self1 evs).
Qed.

(** ** Stop before play, and the mixer *)

Lemma stop_before_play_nil : stop_before_play [].
Proof. intros i c H. by rewrite lookup_nil in H. Qed.

Lemma stop_before_play_stop : stop_before_play [Stop].
Proof. intros [|i] c H; simpl in H; [discriminate|by rewrite lookup_nil in H]. Qed.

Lemma stop_before_play_pair (c : Z) : stop_before_play [Stop; Play c].
Proof.
  intros [|[|i]] c' H; simpl in H; try discriminate.
  by exists 0%nat.
Qed.

Lemma stop_before_play_app (l1 l2 : list action) :
  stop_before_play l1 → stop_before_play l2 → stop_before_play (l1 ++ l2).
Proof.
  intros H1 H2 i c Hi.
  apply lookup_app_Some in Hi as [Hi|[Hlen Hi]].
  - destruct (H1 i c Hi) as (j & -> & Hj).
    exists j. split; [done|]. by apply lookup_app_l_Some.
  - destruct (H2 _ c Hi) as (j & Hij & Hj).
    exists (length l1 + j)%nat. split; [lia|].
    rewrite lookup_app_r by lia.
    by replace (length l1 + j - length l1)%nat with j by lia.
Qed.

Lemma stop_before_play_concat (trace : list (list action)) :
  Forall stop_before_play trace → stop_before_play (concat trace).
Proof.
  induction 1 as [|acts trace Hacts _ IH]; simpl.
  - apply stop_before_play_nil.
  - by apply stop_before_play_app.
Qed.

Lemma stop_before_play_take (k : nat) (acts : list action) :
  stop_before_play acts → stop_before_play (take k acts).
Proof.
  intros H i c Hi. apply lookup_take_Some in Hi as [Hi Hk].
  destruct (H i c Hi) as (j & -> & Hj).
  exists j. split; [done|]. apply lookup_take_Some. split; [done|lia].
Qed.

(** Whatever was sounding, after a disciplined list of calls at most
    one sound is left. *)
Lemma mixer_run_single (acts : list action) (playing : list Z) :
  stop_before_play acts → (length playing ≤ 1)%nat →
  (length (mixer_run playing acts) ≤ 1)%nat.
Proof.
  unfold mixer_run.
  induction acts as [|a0 acts0 _] using rev_ind; [done|].
  intros H Hplaying. rewrite foldl_app. simpl.
  destruct a0 as [|c]; simpl; [lia|].
  destruct (H (length acts0) c) as (j & Hlen & Hj).
  { by rewrite list_lookup_middle. }
  rewrite lookup_app_l in Hj by lia.
  clear H. revert Hlen Hj.
  induction acts0 as [|a1 acts1 _] using rev_ind; [done|].
  rewrite length_app. simpl. intros Hlen Hj.
  rewrite list_lookup_middle in Hj by lia.
  injection Hj as ->. rewrite foldl_app. simpl. lia.
Qed.

Lemma main_run_disciplined (e : Main.env) (evs : list Main.event) :
  ∀ st, Forall stop_before_play (Main.run e st evs).2.
Proof.
  induction evs as [|ev evs IH]; intros st; [constructor|].
  rewrite main_run_cons. simpl. constructor; [|apply IH].
  destruct (main_step_actions e st ev) as [->|[->|[-> _]]];
    auto using stop_before_play_nil, stop_before_play_stop, stop_before_play_pair.
Qed.

Lemma sample_run_disciplined (evs : list Sample.event) :
  ∀ self, Forall stop_before_play (Sample.run self evs).2.
Proof.
  induction evs as [|ev evs IH]; intros self; [constructor|].
  rewrite sample_run_cons. simpl. constructor; [|apply IH].
  destruct (sample_step_actions self ev) as [->|(c & t & _ & _ & _ & ->)];
    auto using stop_before_play_nil, stop_before_play_pair.
Qed.

(** ** C6: stop before play, one sound at a time *)

(** C6. In main.py and in sample.py every play call of a step comes
    right after a stop call of the same step; hence, starting with a
    silent mixer, after any number of calls of any event sequence at
    most one sound is playing. *)
Theorem stop_then_play_one_sound :
  (∀ e st ev, stop_before_play (Main.step e st ev).2)
  ∧ (∀ self ev, stop_before_play (Sample.step self ev).2)
  ∧ (∀ e st evs k,
       (length (mixer_run [] (take k (concat (Main.run e st evs).2))) ≤ 1)%nat)
  ∧ (∀ self evs k,
       (length (mixer_run [] (take k (concat (Sample.run self evs).2))) ≤ 1)%nat).
Proof.
  split; [|split; [|split]].
  - intros e st ev.
    pose proof (main_run_disciplined e [ev] st) as H.
    rewrite main_run_cons in H. by apply Forall_cons in H as [H _].
  - intros self ev.
    pose proof (sample_run_disciplined [ev] self) as H.
    rewrite sample_run_cons in H. by apply Forall_cons in H as [H _].
  - intros e st evs k. apply mixer_run_single; [|simpl; lia].
    apply stop_before_play_take, stop_before_play_concat, main_run_disciplined.
  - intros self evs k. apply mixer_run_single; [|simpl; lia].
    apply stop_before_play_take, stop_before_play_concat, sample_run_disciplined.
Qed.

(** ** C8: an unmapped class is never played *)

(** C8. An event whose class is 0 or has no entry in the chord table
    emits no play call, whatever its time and the state before it: in
    main.py (where a frame without hand carries the class 0) and in
    sample.py. *)
Theorem unmapped_class_never_plays :
  (∀ (e : Main.env) (st : Main.state) (ev : Main.event),
     Main.classification ev = 0
     ∨ Main.chord_sounds e !! Main.classification ev = None →
     count_plays (Main.step e st ev).2 = 0%nat)
  ∧ (∀ (self : Sample.player) (c t : Z),
       c = 0 ∨ Sample.chords self !! c = None →
       count_plays (Sample.step self (Sample.HandPresent c t)).2 = 0%nat).
Proof.
  split.
  - intros e st ev Hc.
    assert (Hnone : Main.chord_sounds e !! Main.classification ev = None).
    { destruct Hc as [->|Hc]; [apply main_chord_sounds_zero|done]. }
    destruct (main_step_actions e st ev) as [->|[->|[_ [s Hs]]]];
      [done|done|congruence].
  - intros self c t Hc.
    destruct (sample_step_actions self (Sample.HandPresent c t))
      as [->|(c' & t' & Hev & Hpos & [s Hs] & _)]; [done|].
    injection Hev as <- <-. destruct Hc as [->|Hc]; [lia|congruence].
Qed.

(** ** C10: the classifier of sample.py *)

Lemma sample_count_21 (lm : hand_landmarks) :
  length lm = 21%nat →
  ∃ n : Z, Sample.count_extended_fingers lm = Some n ∧ 0 ≤ n ≤ 4.
Proof.
  intros Hlen.
  destruct (Sample.count_extended_fingers lm) as [n|] eqn:Hn.
  - exists n. split; [done|].
    apply sample_count_loop_bounds in Hn. simpl in Hn. lia.
  - exfalso. revert Hn.
    unfold Sample.count_extended_fingers, Sample.finger_tips.
    simpl Sample.count_loop. rewrite !landmark_y_lt by (simpl; lia).
    simpl. discriminate.
Qed.

(** The count of sample.py reads the landmarks 6, 8, 10, 12, 14, 16, 18
    and 20 only. *)
Lemma sample_count_reads (lm lm' : hand_landmarks) :
  (∀ i : nat, i ∈ [6; 8; 10; 12; 14; 16; 18; 20]%nat → lm' !! i = lm !! i) →
  Sample.count_extended_fingers lm' = Sample.count_extended_fingers lm.
Proof.
  intros Hsame.
  unfold Sample.count_extended_fingers, Sample.finger_tips.
  simpl Sample.count_loop. unfold landmark_y.
  by rewrite !Hsame by (rewrite !elem_of_cons; tauto).
Qed.

Lemma sample_process_hands_cons (self : Sample.player) (lm : hand_landmarks)
    (t : Z) (hands : list (hand_landmarks * Z)) :
  Sample.process_hands self ((lm, t) :: hands)
  = (num_fingers ← Sample.count_extended_fingers lm;
     let s := Sample.step self (Sample.HandPresent num_fingers t) in
     '(self2, acts') ← Sample.process_hands s.1 hands;
     Some (self2, s.2 ++ acts')).
Proof.
  cbn [Sample.process_hands].
  destruct (Sample.count_extended_fingers lm) as [n|]; [|done].
  cbn [mbind option_bind].
  by destruct (Sample.step self (Sample.HandPresent n t)).
Qed.

Lemma sample_process_hands_no_five (hands : list (hand_landmarks * Z)) :
  Forall (λ h, length h.1 = 21%nat) hands →
  ∀ self, ∃ self' acts,
    Sample.process_hands self hands = Some (self', acts)
    ∧ Play 5 ∉ acts.
Proof.
  induction 1 as [|[lm t] hands Hlm _ IH]; intros self.
  - exists self, []. split; [done|]. apply not_elem_of_nil.
  - rewrite sample_process_hands_cons.
    destruct (sample_count_21 lm Hlm) as (n & -> & Hn).
    cbn [mbind option_bind].
    pose proof (sample_step_actions self (Sample.HandPresent n t)) as Hacts.
    destruct (Sample.step self (Sample.HandPresent n t)) as [self1 acts].
    cbn [fst snd] in *.
    destruct (IH self1) as (self2 & acts' & -> & Hno). cbn [mbind option_bind].
    exists self2, (acts ++ acts'). split; [done|].
    rewrite elem_of_app. intros [Hin|Hin]; [|done].
    destruct Hacts as [->|(c & t' & Hev & _ & _ & ->)].
    + by apply elem_of_nil in Hin.
    + injection Hev as <- <-.
      rewrite !elem_of_cons, elem_of_nil in Hin.
      destruct Hin as [?|[Hin|[]]]; [discriminate|].
      injection Hin as Hin. lia.
Qed.

(** C10. The finger count of sample.py reads the four fingers other
    than the thumb only: on 21 points it returns a number between 0
    and 4, the same whatever the thumb's landmarks (1 to 4) are; it is
    never 5, and whatever the chord table holds for 5, no run of the
    frame loop plays it. *)
Theorem sample_count_never_five (lm : hand_landmarks)
    (self : Sample.player) (frames : list (list (hand_landmarks * Z)))
    (Hlen : length lm = 21%nat)
    (Hframes : Forall (Forall (λ h, length h.1 = 21%nat)) frames) :
  (∃ n : Z, Sample.count_extended_fingers lm = Some n ∧ 0 ≤ n ≤ 4 ∧ n ≠ 5)
  ∧ (∀ lm' : hand_landmarks,
       (∀ i : nat, i ∉ [1; 2; 3; 4]%nat → lm' !! i = lm !! i) →
       Sample.count_extended_fingers lm' = Sample.count_extended_fingers lm)
  ∧ (∃ self' trace,
       Sample.frame_loop self frames = Some (self', trace)
       ∧ Play 5 ∉ concat trace).
Proof.
  split; [|split].
  - destruct (sample_count_21 lm Hlen) as (n & Hn & Hb).
    exists n. split; [done|]. lia.
  - intros lm' Hsame. apply sample_count_reads.
    intros i Hi. apply Hsame.
    rewrite !elem_of_cons, elem_of_nil in Hi.
    rewrite !not_elem_of_cons, elem_of_nil. lia.
  - clear lm Hlen. revert self.
    induction Hframes as [|hands frames Hhands _ IH]; intros self; simpl.
    + exists self, []. split; [done|]. apply not_elem_of_nil.
    + destruct (sample_process_hands_no_five hands Hhands self)
        as (self1 & acts & -> & Hno). simpl.
      destruct (IH self1) as (self2 & trace & -> & Hno'). simpl.
      exists self2, (acts :: trace). split; [done|].
      simpl. rewrite elem_of_app. tauto.
Qed.

(** ** The cases of the chord logic *)

Lemma main_mapped_mixer_ok (e : Main.env) (c : Z) :
  is_Some (Main.chord_sounds e !! c) → Main.pygame_mixer_ok e = true.
Proof.
  intros [s Hs]. destruct (Main.pygame_mixer_ok e) eqn:Hok; [done|].
  by rewrite main_chord_sounds_no_mixer in Hs.
Qed.

(** A class other than the last one, mapped, after the debounce time:
    stop, play, and the state records the play. *)
Lemma main_chord_logic_fires (e : Main.env) (st : Main.state) (hand : bool)
    (c : Z) (t : Q) :
  is_Some (Main.chord_sounds e !! c) →
  c ≠ Main.last_played_fingers st →
  (Main.debounce_time < t - Main.last_sound_play_time st)%Q →
  Main.chord_logic e st hand c t
  = ({| Main.last_played_fingers := c; Main.last_sound_play_time := t |},
     [Stop; Play c]).
Proof.
  intros Hc Hne Ht. unfold Main.chord_logic.
  rewrite (main_mapped_mixer_ok e c Hc).
  apply Z.eqb_neq in Hne as ->. apply Qlt_bool_true in Ht as ->. simpl.
  by destruct Hc as [s ->].
Qed.

(** A class other than the last one, not mapped, after the debounce
    time, with a mixer: stop, and the state is reset to 0. *)
Lemma main_chord_logic_unmapped (e : Main.env) (st : Main.state) (hand : bool)
    (c : Z) (t : Q) :
  Main.chord_sounds e !! c = None →
  Main.pygame_mixer_ok e = true →
  c ≠ Main.last_played_fingers st →
  (Main.debounce_time < t - Main.last_sound_play_time st)%Q →
  Main.chord_logic e st hand c t
  = ({| Main.last_played_fingers := 0;
        Main.last_sound_play_time := Main.last_sound_play_time st |},
     [Stop]).
Proof.
  intros Hc Hok Hne Ht. unfold Main.chord_logic.
  rewrite Hok, Hc. apply Z.eqb_neq in Hne as ->.
  by apply Qlt_bool_true in Ht as ->.
Qed.

(** A class other than the last one within the debounce time: nothing. *)
Lemma main_chord_logic_debounced (e : Main.env) (st : Main.state) (hand : bool)
    (c : Z) (t : Q) :
  Main.pygame_mixer_ok e = true →
  c ≠ Main.last_played_fingers st →
  (t - Main.last_sound_play_time st <= Main.debounce_time)%Q →
  Main.chord_logic e st hand c t = (st, []).
Proof.
  intros Hok Hne Ht. unfold Main.chord_logic.
  rewrite Hok. apply Z.eqb_neq in Hne as ->.
  by apply Qlt_bool_false in Ht as ->.
Qed.

(** The class played last, with a hand in the frame: nothing. *)
Lemma main_chord_logic_same (e : Main.env) (st : Main.state) (t : Q) :
  Main.chord_logic e st true (Main.last_played_fingers st) t = (st, []).
Proof. unfold Main.chord_logic. by rewrite Z.eqb_refl. Qed.

(** Without a mixer, in the state "nothing played": nothing. *)
Lemma main_chord_logic_no_mixer (e : Main.env) (st : Main.state) (hand : bool)
    (c : Z) (t : Q) :
  Main.pygame_mixer_ok e = false →
  Main.last_played_fingers st = -1 →
  Main.chord_logic e st hand c t = (st, []).
Proof.
  intros Hok Hlast. unfold Main.chord_logic.
  rewrite Hok, Hlast, andb_false_r. simpl. by rewrite andb_false_r.
Qed.

Lemma main_play_inv (e : Main.env) (st : Main.state) (hand : bool)
    (c c' : Z) (t : Q) :
  Play c' ∈ (Main.chord_logic e st hand c t).2 →
  Main.chord_logic e st hand c t
  = ({| Main.last_played_fingers := c; Main.last_sound_play_time := t |},
     [Stop; Play c]).
Proof.
  unfold Main.chord_logic.
  destruct (negb (c =? Main.last_played_fingers st) && Main.pygame_mixer_ok e).
  - destruct (Qlt_bool _ _); [|by intros ?%elem_of_nil].
    destruct (Main.chord_sounds e !! c); [done|].
    simpl. rewrite list_elem_of_singleton. discriminate.
  - destruct (negb hand && negb (Main.last_played_fingers st =? -1));
      [|by intros ?%elem_of_nil].
    destruct (Main.pygame_mixer_ok e); simpl;
      [rewrite list_elem_of_singleton; discriminate|by intros ?%elem_of_nil].
Qed.

(** [play_chord] fires on a mapped class that is new or whose cooldown
    is over, and does nothing otherwise. *)
Lemma sample_play_chord_fires (self : Sample.player) (c t : Z) :
  is_Some (Sample.chords self !! c) →
  Sample.last_played_chord self ≠ Some c
  ∨ Sample.chord_cooldown self < t - Sample.last_play_time self →
  Sample.play_chord self c t
  = ({| Sample.chords := Sample.chords self;
        Sample.last_played_chord := Some c;
        Sample.chord_cooldown := Sample.chord_cooldown self;
        Sample.last_play_time := t |},
     [Stop; Play c]).
Proof.
  intros Hc Hnew. unfold Sample.play_chord.
  rewrite (bool_decide_eq_true_2 _ Hc). simpl.
  destruct Hnew as [Hnew|Hnew].
  - by rewrite (bool_decide_eq_false_2 _ Hnew).
  - apply Z.ltb_lt in Hnew as ->. by rewrite orb_true_r.
Qed.

Lemma sample_play_chord_quiet (self : Sample.player) (c t : Z) :
  Sample.chords self !! c = None
  ∨ (Sample.last_played_chord self = Some c
     ∧ t - Sample.last_play_time self ≤ Sample.chord_cooldown self) →
  Sample.play_chord self c t = (self, []).
Proof.
  intros [Hc|[Hlast Ht]]; unfold Sample.play_chord.
  - rewrite bool_decide_eq_false_2; [done|]. rewrite Hc. by intros [? ?].
  - rewrite (bool_decide_eq_true_2 _ Hlast).
    apply Z.ltb_ge in Ht as ->. by rewrite andb_false_r.
Qed.

Lemma sample_play_inv (self : Sample.player) (c c' t : Z) :
  Play c' ∈ (Sample.step self (Sample.HandPresent c t)).2 →
  Sample.step self (Sample.HandPresent c t)
  = ({| Sample.chords := Sample.chords self;
        Sample.last_played_chord := Some c;
        Sample.chord_cooldown := Sample.chord_cooldown self;
        Sample.last_play_time := t |},
     [Stop; Play c]).
Proof.
  simpl. destruct (0 <? c); [|by intros ?%elem_of_nil].
  unfold Sample.play_chord. destruct (_ && _); [done|by intros ?%elem_of_nil].
Qed.

(** ** C5: one play for a held gesture *)

Lemma main_held_class_silent (e : Main.env) (c : Z) (ts : list Q) :
  ∀ st, Main.last_played_fingers st = c →
    Main.run e st (Main.HandPresent c <$> ts) = (st, (λ _, []) <$> ts).
Proof.
  induction ts as [|t ts IH]; intros st Hst; [done|].
  rewrite fmap_cons, main_run_cons. simpl Main.step. subst c.
  rewrite main_chord_logic_same. simpl.
  by rewrite IH.
Qed.

Lemma sample_held_class_silent (c t0 : Z) (ts : list Z) :
  ∀ self, Sample.last_played_chord self = Some c →
    Sample.last_play_time self = t0 →
    Forall (λ t, t - t0 ≤ Sample.chord_cooldown self) ts →
    Sample.run self (Sample.HandPresent c <$> ts) = (self, (λ _, []) <$> ts).
Proof.
  induction ts as [|t ts IH]; intros self Hlast Htime Hts; [done|].
  apply Forall_cons in Hts as [Ht Hts].
  assert (Hstep : Sample.step self (Sample.HandPresent c t) = (self, [])).
  { simpl. destruct (0 <? c); [|done].
    apply sample_play_chord_quiet. right. split; [done|lia]. }
  rewrite fmap_cons, sample_run_cons, Hstep. simpl.
  by rewrite IH.
Qed.

Lemma count_plays_silent {A} (l : list A) :
  count_plays (concat ((λ _, [] : list action) <$> l)) = 0%nat.
Proof. induction l as [|a l IH]; [done|]. simpl. exact IH. Qed.

(** C5. When a hand-present event of a mapped class is played and the
    hand-present events that follow carry the same class, all within
    the debounce time of that play, the whole sequence emits exactly
    one play call: in main.py (debounce time 0.3 s) and in sample.py
    (the cooldown of the player). *)
Theorem held_class_plays_once :
  (∀ (e : Main.env) (st : Main.state) (c : Z) (t0 : Q) (ts : list Q),
     is_Some (Main.chord_sounds e !! c) →
     Play c ∈ (Main.step e st (Main.HandPresent c t0)).2 →
     Forall (λ t, (t - t0 <= Main.debounce_time)%Q) ts →
     count_plays
       (concat (Main.run e st (Main.HandPresent c <$> t0 :: ts)).2) = 1%nat)
  ∧ (∀ (self : Sample.player) (c t0 : Z) (ts : list Z),
       is_Some (Sample.chords self !! c) →
       Play c ∈ (Sample.step self (Sample.HandPresent c t0)).2 →
       Forall (λ t, t - t0 ≤ Sample.chord_cooldown self) ts →
       count_plays
         (concat (Sample.run self (Sample.HandPresent c <$> t0 :: ts)).2) = 1%nat).
Proof.
  split.
  - intros e st c t0 ts _ Hplay _.
    rewrite fmap_cons, main_run_cons.
    simpl Main.step in *. rewrite (main_play_inv _ _ _ _ _ _ Hplay).
    cbn [fst snd]. rewrite main_held_class_silent by done.
    cbn [fst snd concat]. unfold count_plays.
    rewrite filter_app, length_app. fold (count_plays (concat ((λ _, [] : list action) <$> ts))).
    by rewrite count_plays_silent.
  - intros self c t0 ts _ Hplay Hts.
    rewrite fmap_cons, sample_run_cons.
    rewrite (sample_play_inv _ _ _ _ Hplay).
    cbn [fst snd]. rewrite (sample_held_class_silent c t0) by done.
    cbn [fst snd concat]. unfold count_plays.
    rewrite filter_app, length_app. fold (count_plays (concat ((λ _, [] : list action) <$> ts))).
    by rewrite count_plays_silent.
Qed.

(** ** C9: main.py without a mixer *)

Lemma main_loop_cons (e : Main.env) (st : Main.state)
    (frame : option hand_landmarks) (t : Q)
    (frames : list (option hand_landmarks * Q)) :
  Main.main_loop e st ((frame, t) :: frames)
  = ('(st1, acts, shown) ← Main.loop_body e st frame t;
     '(st2, out) ← Main.main_loop e st1 frames;
     Some (st2, (acts, shown) :: out)).
Proof. reflexivity. Qed.

(** The count a frame shows: the classification of its hand, 0 without hand. *)
Lemma main_loop_body_21 (e : Main.env) (st : Main.state)
    (frame : option hand_landmarks) (t : Q) :
  (∀ lm, frame = Some lm → length lm = 21%nat) →
  ∃ fingers : Z,
    fingers = match frame with
              | Some lm => ClassifierSpec.extended_count lm
              | None => 0
              end
    ∧ Main.loop_body e st frame t
      = Some (Main.chord_logic e st (bool_decide (is_Some frame)) fingers t,
              fingers).
Proof.
  intros Hframe. eexists. split; [reflexivity|].
  unfold Main.loop_body. destruct frame as [lm|].
  - rewrite (main_count_fingers_21 lm) by by apply Hframe.
    cbn [mbind option_bind]. by destruct (Main.chord_logic _ _ _ _ _).
  - cbn [mbind option_bind]. by destruct (Main.chord_logic _ _ _ _ _).
Qed.

(** C9. When the mixer of main.py failed to initialize, over every
    sequence of frames (hands of 21 points) the loop keeps running,
    the state stays the initial one, with [last_played_fingers] at -1,
    no frame emits a stop or a play call, and every frame still shows
    the finger count of its hand (0 without hand). *)
Theorem main_without_mixer (e : Main.env)
    (frames : list (option hand_landmarks * Q))
    (Hmixer : Main.pygame_mixer_ok e = false)
    (Hframes : Forall (λ f, ∀ lm, f.1 = Some lm → length lm = 21%nat) frames) :
  ∃ (st : Main.state) (out : list (list action * Z)),
    Main.main_loop e Main.initial_state frames = Some (st, out)
    ∧ st = Main.initial_state
    ∧ Main.last_played_fingers st = -1
    ∧ Forall (λ o, o.1 = []) out
    ∧ snd <$> out
      = (λ f, match f.1 with
              | Some lm => ClassifierSpec.extended_count lm
              | None => 0
              end) <$> frames.
Proof.
  induction Hframes as [|[frame t] frames Hframe _ IH].
  - exists Main.initial_state, []. by repeat split.
  - destruct IH as (st & out & Hloop & -> & _ & Hsilent & Hshown).
    destruct (main_loop_body_21 e Main.initial_state frame t Hframe)
      as (fingers & Hfingers & Hbody).
    rewrite main_chord_logic_no_mixer in Hbody by done.
    exists Main.initial_state, (([], fingers) :: out).
    rewrite main_loop_cons, Hbody. cbn [mbind option_bind].
    rewrite Hloop. cbn [mbind option_bind].
    repeat split; try done.
    + by constructor.
    + rewrite !fmap_cons, Hshown. cbn [fst snd]. by rewrite Hfingers.
Qed.

(** ** C1: the scenario 1, 1, 2 *)

(** C1, as the specification has it, fails: on the scenario sample.py
    (cooldown 300 ms) also calls stop before the first play, and
    main.py (idle, last play a second old) plays class 1 and then
    emits nothing for class 2 at 0.2 s, a change of class within the
    debounce time. *)
Lemma scenario_counterexample :
  (Sample.run sample_idle sample_scenario).2
    = [[Stop; Play 1]; []; [Stop; Play 2]]
  ∧ (Sample.run sample_idle sample_scenario).2 ≠ scenario_trace_as_specified
  ∧ (Main.run all_loaded main_idle main_scenario).2 = [[Stop; Play 1]; []; []]
  ∧ (Main.run all_loaded main_idle main_scenario).2 ≠ scenario_trace_as_specified.
Proof. repeat split; (vm_compute; congruence). Qed.

(** C1, amended. With classes 1 and 2 mapped and nothing played yet:
    sample.py with a cooldown of 300 ms emits stop, play(1) at 0 ms,
    nothing at 100 ms, and stop, play(2) at 200 ms; main.py, its last
    play more than the debounce time before 0 s, emits stop, play(1)
    at 0 s, nothing at 0.1 s and nothing at 0.2 s. *)
Theorem scenario_traces (e : Main.env) (st : Main.state) (self : Sample.player)
    (He1 : is_Some (Main.chord_sounds e !! 1))
    (He2 : is_Some (Main.chord_sounds e !! 2))
    (Hidle : Main.last_played_fingers st = -1)
    (Hold : (Main.debounce_time < 0 - Main.last_sound_play_time st)%Q)
    (Hs1 : is_Some (Sample.chords self !! 1))
    (Hs2 : is_Some (Sample.chords self !! 2))
    (Hsidle : Sample.last_played_chord self = None)
    (Hcool : Sample.chord_cooldown self = 300) :
  (Sample.run self sample_scenario).2 = [[Stop; Play 1]; []; [Stop; Play 2]]
  ∧ (Main.run e st main_scenario).2 = [[Stop; Play 1]; []; []].
Proof.
  split.
  - unfold sample_scenario. rewrite !sample_run_cons. cbn [fst snd Sample.run].
    cbn [Sample.step Z.ltb Z.compare].
    rewrite (sample_play_chord_fires self 1 0) by (rewrite ?Hsidle; auto).
    cbn [fst snd].
    rewrite (sample_play_chord_quiet _ 1 100)
      by (right; cbn [Sample.last_played_chord Sample.last_play_time
                      Sample.chord_cooldown]; split; [done|lia]).
    cbn [fst snd].
    by rewrite (sample_play_chord_fires _ 2 200) by (by auto).
  - unfold main_scenario. rewrite !main_run_cons. cbn [fst snd Main.run].
    cbn [Main.step].
    rewrite (main_chord_logic_fires e st true 1 0) by (rewrite ?Hidle; done).
    cbn [fst snd].
    rewrite (main_chord_logic_same e (Main.State 1 0)).
    cbn [fst snd].
    by rewrite (main_chord_logic_debounced e (Main.State 1 0) true 2)
      by (eauto using main_mapped_mixer_ok; done).
Qed.

Lemma scenario_traces_witness :
  (Sample.run sample_idle sample_scenario).2 = [[Stop; Play 1]; []; [Stop; Play 2]]
  ∧ (Main.run all_loaded main_idle main_scenario).2 = [[Stop; Play 1]; []; []].
Proof.
  apply (scenario_traces all_loaded main_idle sample_idle);
    try reflexivity; by vm_compute; eauto.
Defined.

(** ** C2: the played class again, after the debounce time *)

(** C2, as the specification has it, fails on main.py: class 1 was
    played at 0 s and is seen again at 1 s, more than the debounce
    time later, and nothing is emitted. *)
Lemma retrigger_counterexample :
  Main.chord_sounds all_loaded !! 1 = Some "C_chord.wav"%string
  ∧ (Main.debounce_time < 1 - 0)%Q
  ∧ Main.step all_loaded (main_sounding 1 0) (Main.HandPresent 1 1)
    = (main_sounding 1 0, [])
  ∧ (Main.step all_loaded (main_sounding 1 0) (Main.HandPresent 1 1)).2
    ≠ [Stop; Play 1].
Proof. repeat split; (vm_compute; congruence). Qed.

(** C2, amended. In sample.py a hand-present event of the class played
    last, mapped and positive, re-triggers when it comes more than the
    cooldown after that play (stop, play, and the player records the
    class and the new time) and does nothing within the cooldown.  In
    main.py a hand-present event of the class played last does
    nothing, whatever the time. *)
Theorem same_class_retrigger :
  (∀ (self : Sample.player) (c t : Z),
     is_Some (Sample.chords self !! c) → 0 < c →
     Sample.last_played_chord self = Some c →
     (Sample.chord_cooldown self < t - Sample.last_play_time self →
      Sample.step self (Sample.HandPresent c t)
      = ({| Sample.chords := Sample.chords self;
            Sample.last_played_chord := Some c;
            Sample.chord_cooldown := Sample.chord_cooldown self;
            Sample.last_play_time := t |},
         [Stop; Play c]))
     ∧ (t - Sample.last_play_time self ≤ Sample.chord_cooldown self →
        Sample.step self (Sample.HandPresent c t) = (self, [])))
  ∧ (∀ (e : Main.env) (st : Main.state) (c : Z) (t : Q),
       Main.last_played_fingers st = c →
       Main.step e st (Main.HandPresent c t) = (st, [])).
Proof.
  split.
  - intros self c t Hc Hpos Hlast. simpl.
    apply Z.ltb_lt in Hpos as ->. split; intros Ht.
    + apply sample_play_chord_fires; auto.
    + apply sample_play_chord_quiet; auto.
  - intros e st c t <-. apply main_chord_logic_same.
Qed.

Lemma same_class_retrigger_witness :
  Sample.step (sample_sounding 1 0) (Sample.HandPresent 1 301)
    = (sample_sounding 1 301, [Stop; Play 1])
  ∧ Sample.step (sample_sounding 1 0) (Sample.HandPresent 1 300)
    = (sample_sounding 1 0, [])
  ∧ Main.step all_loaded (main_sounding 1 0) (Main.HandPresent 1 1)
    = (main_sounding 1 0, []).
Proof.
  split; [|split].
  - apply (proj1 same_class_retrigger (sample_sounding 1 0) 1 301);
      [by vm_compute; eauto|lia|reflexivity|simpl; lia].
  - apply (proj1 same_class_retrigger (sample_sounding 1 0) 1 300);
      [by vm_compute; eauto|lia|reflexivity|simpl; lia].
  - apply (proj2 same_class_retrigger all_loaded (main_sounding 1 0) 1 1%Q).
    reflexivity.
Defined.

(** ** C3: a class without sample *)

(** C3, as the specification has it, fails on main.py: class 1 sounds
    since 0 s, class 0 (not mapped) is seen with a hand in the frame
    at 1 s, and a stop is emitted.  In sample.py nothing is emitted,
    and the player keeps its last played class: it does not become idle. *)
Lemma unmapped_class_counterexample :
  Main.chord_sounds all_loaded !! 0 = None
  ∧ Main.step all_loaded (main_sounding 1 0) (Main.HandPresent 0 1)
    = (main_sounding 0 0, [Stop])
  ∧ count_stops
      (Main.step all_loaded (main_sounding 1 0) (Main.HandPresent 0 1)).2 ≠ 0%nat
  ∧ Sample.last_played_chord
      (Sample.step (sample_sounding 1 0) (Sample.HandPresent 5 1000)).1 = Some 1.
Proof. repeat split; (vm_compute; congruence). Qed.

(** C3, amended. A hand-present event whose class has no sample: in
    main.py, when the mixer is there, the class is not the value of
    [last_played_fingers] and more than the debounce time has passed
    since the last play, it emits one stop and no play and sets
    [last_played_fingers] to 0, and otherwise emits nothing and leaves
    the state as it is; in sample.py (also for a class that is not
    positive) it emits nothing and leaves the player as it is. *)
Theorem unmapped_class_step :
  (∀ (e : Main.env) (st : Main.state) (c : Z) (t : Q),
     Main.chord_sounds e !! c = None →
     let fresh := Main.pygame_mixer_ok e = true
                  ∧ c ≠ Main.last_played_fingers st
                  ∧ (Main.debounce_time < t - Main.last_sound_play_time st)%Q in
     (fresh →
      Main.step e st (Main.HandPresent c t)
      = ({| Main.last_played_fingers := 0;
            Main.last_sound_play_time := Main.last_sound_play_time st |},
         [Stop]))
     ∧ (¬ fresh → Main.step e st (Main.HandPresent c t) = (st, [])))
  ∧ (∀ (self : Sample.player) (c t : Z),
       c ≤ 0 ∨ Sample.chords self !! c = None →
       Sample.step self (Sample.HandPresent c t) = (self, [])).
Proof.
  split.
  - intros e st c t Hc fresh. subst fresh. split.
    + intros (Hok & Hne & Ht). by apply main_chord_logic_unmapped.
    + intros Hnot. simpl.
      destruct (decide (c = Main.last_played_fingers st)) as [->|Hne];
        [apply main_chord_logic_same|].
      unfold Main.chord_logic. apply Z.eqb_neq in Hne as Hneb. rewrite Hneb.
      destruct (Main.pygame_mixer_ok e) eqn:Hok; [|done]. simpl.
      destruct (Qlt_bool _ _) eqn:Ht; [|done].
      apply Qlt_bool_true in Ht. tauto.
  - intros self c t [Hc|Hc]; simpl.
    + apply Z.ltb_ge in Hc as ->. done.
    + destruct (0 <? c); [|done]. apply sample_play_chord_quiet. by left.
Qed.

Lemma unmapped_class_step_witness :
  Main.step all_loaded (main_sounding 1 0) (Main.HandPresent 0 1)
    = (main_sounding 0 0, [Stop])
  ∧ Main.step all_loaded (main_sounding 1 0) (Main.HandPresent 0 (1 # 10))
    = (main_sounding 1 0, [])
  ∧ Sample.step (sample_sounding 1 0) (Sample.HandPresent 5 1000)
    = (sample_sounding 1 0, []).
Proof.
  split; [|split].
  - apply (proj1 unmapped_class_step all_loaded (main_sounding 1 0) 0 1%Q);
      [reflexivity|]. split; [reflexivity|]. split; [simpl; lia|reflexivity].
  - apply (proj1 unmapped_class_step all_loaded (main_sounding 1 0) 0 (1 # 10)%Q);
      [reflexivity|]. intros (_ & _ & Ht). vm_compute in Ht. discriminate.
  - apply (proj2 unmapped_class_step (sample_sounding 1 0) 5 1000).
    right. reflexivity.
Defined.

(** ** C4: the hand leaves the frame *)

(** C4 on main.py, at inputs where the code misses it.  Class 1 is
    played at 10 s: a frame without hand at 10.1 s emits no stop and
    leaves the state as it is; frames without hand at 11 s and 12 s
    emit one stop each, through 0 to -1.  And with nothing played
    ([last_played_fingers] at -1), frames without hand at 1 s and 2 s
    emit a stop each and move the state to 0 and back to -1. *)
Theorem hand_loss_evaluated :
  Main.run all_loaded Main.initial_state
    [Main.HandPresent 1 10; Main.HandAbsent (101 # 10)]
    = (main_sounding 1 10, [[Stop; Play 1]; []])
  ∧ Main.step all_loaded (main_sounding 1 10) (Main.HandAbsent (101 # 10))
    = (main_sounding 1 10, [])
  ∧ Main.run all_loaded (main_sounding 1 10) [Main.HandAbsent 11; Main.HandAbsent 12]
    = (main_sounding (-1) 10, [[Stop]; [Stop]])
  ∧ Main.step all_loaded Main.initial_state (Main.HandAbsent 1)
    = (main_sounding 0 0, [Stop])
  ∧ Main.run all_loaded Main.initial_state [Main.HandAbsent 1; Main.HandAbsent 2]
    = (Main.initial_state, [[Stop]; [Stop]])
  ∧ Sample.step (sample_sounding 1 0) Sample.HandAbsent = (sample_sounding 1 0, []).
Proof. repeat split; vm_compute; reflexivity. Qed.

(** ** The theorems at concrete inputs *)

Lemma unmapped_class_never_plays_witness :
  count_plays (Main.step all_loaded (main_sounding 1 0) (Main.HandAbsent 1)).2 = 0%nat
  ∧ count_plays
      (Main.step all_loaded (main_sounding 1 0) (Main.HandPresent 7 1)).2 = 0%nat
  ∧ count_plays
      (Sample.step (sample_sounding 1 0) (Sample.HandPresent 5 1000)).2 = 0%nat.
Proof.
  split; [|split].
  - apply (proj1 unmapped_class_never_plays all_loaded (main_sounding 1 0)
             (Main.HandAbsent 1)).
    left. reflexivity.
  - apply (proj1 unmapped_class_never_plays all_loaded (main_sounding 1 0)
             (Main.HandPresent 7 1)).
    right. reflexivity.
  - apply (proj2 unmapped_class_never_plays (sample_sounding 1 0) 5 1000).
    right. reflexivity.
Defined.

Lemma sample_count_never_five_witness :
  (∃ n : Z, Sample.count_extended_fingers open_hand = Some n ∧ 0 ≤ n ≤ 4 ∧ n ≠ 5)
  ∧ (∀ lm' : hand_landmarks,
       (∀ i : nat, i ∉ [1; 2; 3; 4]%nat → lm' !! i = open_hand !! i) →
       Sample.count_extended_fingers lm'
       = Sample.count_extended_fingers open_hand)
  ∧ (∃ self' trace,
       Sample.frame_loop Sample.init [[(open_hand, 0)]; []; [(open_hand, 2000)]]
       = Some (self', trace)
       ∧ Play 5 ∉ concat trace).
Proof.
  apply (sample_count_never_five open_hand Sample.init
           [[(open_hand, 0)]; []; [(open_hand, 2000)]]).
  - reflexivity.
  - repeat constructor.
Defined.

Lemma held_class_plays_once_witness :
  count_plays
    (concat (Main.run all_loaded main_idle
               (Main.HandPresent 1 <$> [0; 1 # 10; 2 # 10]%Q)).2) = 1%nat
  ∧ count_plays
      (concat (Sample.run sample_idle
                 (Sample.HandPresent 1 <$> [0; 100; 300])).2) = 1%nat.
Proof.
  split.
  - apply (proj1 held_class_plays_once all_loaded main_idle 1 0%Q
             [1 # 10; 2 # 10]%Q).
    + vm_compute. eauto.
    + vm_compute. repeat constructor.
    + repeat constructor; vm_compute; discriminate.
  - apply (proj2 held_class_plays_once sample_idle 1 0 [100; 300]).
    + vm_compute. eauto.
    + vm_compute. repeat constructor.
    + repeat constructor; simpl; lia.
Defined.

Lemma main_without_mixer_witness :
  ∃ (st : Main.state) (out : list (list action * Z)),
    Main.main_loop no_mixer Main.initial_state
      [(Some open_hand, 1%Q); (None, 2%Q)] = Some (st, out)
    ∧ st = Main.initial_state
    ∧ Main.last_played_fingers st = -1
    ∧ Forall (λ o, o.1 = []) out
    ∧ snd <$> out
      = (λ f, match f.1 with
              | Some lm => ClassifierSpec.extended_count lm
              | None => 0
              end) <$> [(Some open_hand, 1%Q); (None, 2%Q)].
Proof.
  apply (main_without_mixer no_mixer [(Some open_hand, 1%Q); (None, 2%Q)]).
  - reflexivity.
  - repeat constructor; simpl; intros lm Hlm; [|discriminate].
    injection Hlm as <-. reflexivity.
Defined.

(** * Further properties of the code *)

(** ** Loading the sounds of main.py *)

Lemma load_sounds_lookup (loads : string → bool) (items : list (Z * string)) :
  NoDup items.*1 →
  ∀ (c : Z) (f : string),
    foldl (λ (sounds : gmap Z string) '(fingers, filename),
             if loads filename then <[fingers := filename]> sounds else sounds)
          ∅ items !! c = Some f
    ↔ (c, f) ∈ items ∧ loads f = true.
Proof.
  induction items as [|[k g] items IH] using rev_ind; intros Hdup c f.
  - simpl. rewrite lookup_empty, elem_of_nil. split; [discriminate|tauto].
  - rewrite fmap_app in Hdup. apply NoDup_app in Hdup as (Hdup & Hk & _).
    rewrite foldl_app. simpl. rewrite elem_of_app, list_elem_of_singleton.
    destruct (loads g) eqn:Hg.
    + rewrite lookup_insert_Some, (IH Hdup). split.
      * intros [[-> ->]|[Hne [Hin Hf]]]; [by auto|by auto].
      * intros [[Hin|Heq] Hf].
        -- right. split; [|done]. intros ->.
           apply (Hk c); [|simpl; apply list_elem_of_singleton; done].
           apply list_elem_of_fmap. by exists (c, f).
        -- injection Heq as -> ->. by left.
    + rewrite (IH Hdup). split; [tauto|].
      intros [[Hin|Heq] Hf]; [done|]. injection Heq as -> ->. congruence.
Qed.

Lemma main_chord_sounds_loaded (e : Main.env) (c : Z) (f : string) :
  Main.chord_sounds e !! c = Some f
  ↔ Main.pygame_mixer_ok e = true
    ∧ (c, f) ∈ Main.finger_chord_map
    ∧ Main.loads e f = true.
Proof.
  unfold Main.chord_sounds. destruct (Main.pygame_mixer_ok e).
  - rewrite load_sounds_lookup; [tauto|].
    unfold Main.finger_chord_map. compute_done.
  - rewrite lookup_empty. split; [discriminate|]. by intros [? _].
Qed.

(** X1. After startup, [chord_sounds] holds a sound for a class
    exactly when the mixer initialized and [finger_chord_map] names
    for this class a file that loads; the sound is that file. *)
Theorem main_chord_sounds_lookup (e : Main.env) (c : Z) (f : string) :
  Main.chord_sounds e !! c = Some f
  ↔ Main.pygame_mixer_ok e = true
    ∧ (c, f) ∈ Main.finger_chord_map
    ∧ Main.loads e f = true.
Proof. apply main_chord_sounds_loaded. Qed.

(** X2. The classes 1 and 5 share the file C_chord.wav: after startup
    either both have this sound or none has one. *)
Theorem main_one_and_five_together (e : Main.env) :
  Main.chord_sounds e !! 1 = Main.chord_sounds e !! 5
  ∧ (∀ f, Main.chord_sounds e !! 5 = Some f → f = "C_chord.wav"%string).
Proof.
  assert (H : ∀ c, c = 1 ∨ c = 5 →
    Main.chord_sounds e !! c
    = if Main.pygame_mixer_ok e && Main.loads e "C_chord.wav"
      then Some "C_chord.wav"%string else None).
  { intros c Hc.
    destruct (Main.chord_sounds e !! c) as [f|] eqn:Hf.
    - apply main_chord_sounds_loaded in Hf as (-> & Hin & Hl).
      assert (f = "C_chord.wav"%string) as ->.
      { unfold Main.finger_chord_map in Hin.
        rewrite !elem_of_cons, elem_of_nil in Hin.
        destruct Hc as [-> | ->];
          repeat (destruct Hin as [Hin|Hin]; [by injection Hin|]); done. }
      by rewrite Hl.
    - destruct (Main.pygame_mixer_ok e && Main.loads e "C_chord.wav") eqn:Hb;
        [|done].
      apply andb_true_iff in Hb as [Hok Hl].
      assert (Main.chord_sounds e !! c = Some "C_chord.wav"%string) as Hsome;
        [|congruence].
      apply main_chord_sounds_loaded. split; [done|]. split; [|done].
      unfold Main.finger_chord_map. destruct Hc as [-> | ->]; set_solver. }
  split.
  - by rewrite (H 1), (H 5) by auto.
  - intros f Hf. rewrite (H 5) in Hf by auto.
    destruct (_ && _); congruence.
Qed.

(** ** The state of main.py *)

Lemma main_chord_logic_last (e : Main.env) (st : Main.state) (hand : bool)
    (c : Z) (t : Q) :
  let st' := (Main.chord_logic e st hand c t).1 in
  Main.last_played_fingers st' = Main.last_played_fingers st
  ∨ Main.last_played_fingers st' = -1
  ∨ Main.last_played_fingers st' = 0
  ∨ is_Some (Main.chord_sounds e !! Main.last_played_fingers st').
Proof.
  unfold Main.chord_logic.
  destruct (negb (c =? Main.last_played_fingers st) && Main.pygame_mixer_ok e).
  - destruct (Qlt_bool _ _); [|by left].
    destruct (Main.chord_sounds e !! c) eqn:Hc; simpl; [|by auto].
    right. right. right. by rewrite Hc.
  - destruct (negb hand && negb (Main.last_played_fingers st =? -1)); simpl; auto.
Qed.

(** X3. [last_played_fingers] is -1, 0 or a class that has a sound:
    this holds at startup and after any sequence of events, so the
    variable stays between -1 and 5. *)
Theorem main_last_played_invariant (e : Main.env) (st : Main.state)
    (evs : list Main.event)
    (Hst : Main.last_played_fingers st = -1
           ∨ Main.last_played_fingers st = 0
           ∨ is_Some (Main.chord_sounds e !! Main.last_played_fingers st)) :
  let st' := (Main.run e st evs).1 in
  (Main.last_played_fingers st' = -1
   ∨ Main.last_played_fingers st' = 0
   ∨ is_Some (Main.chord_sounds e !! Main.last_played_fingers st'))
  ∧ -1 ≤ Main.last_played_fingers st' ≤ 5.
Proof.
  simpl.
  assert (Hinv : Main.last_played_fingers (Main.run e st evs).1 = -1
            ∨ Main.last_played_fingers (Main.run e st evs).1 = 0
            ∨ is_Some (Main.chord_sounds e
                         !! Main.last_played_fingers (Main.run e st evs).1)).
  { revert st Hst. induction evs as [|ev evs IH]; intros st Hst; [done|].
    rewrite main_run_cons. cbn [fst]. apply IH.
    destruct ev as [c t|t]; simpl;
      [pose proof (main_chord_logic_last e st true c t) as H
      |pose proof (main_chord_logic_last e st false 0 t) as H];
      simpl in H; destruct H as [->|H]; auto. }
  split; [done|].
  destruct Hinv as [->|[->|Hc]]; [lia|lia|].
  apply main_chord_sounds_keys in Hc. lia.
Qed.

Lemma main_last_played_invariant_witness :
  let st' := (Main.run all_loaded Main.initial_state main_scenario).1 in
  (Main.last_played_fingers st' = -1
   ∨ Main.last_played_fingers st' = 0
   ∨ is_Some (Main.chord_sounds all_loaded !! Main.last_played_fingers st'))
  ∧ -1 ≤ Main.last_played_fingers st' ≤ 5.
Proof.
  apply (main_last_played_invariant all_loaded Main.initial_state main_scenario).
  left. reflexivity.
Defined.

(** ** The timing of main.py *)

(** A step either plays, more than the debounce time after the last
    play, and records its time, or does not play and keeps the time of
    the last play. *)
Lemma main_step_time (e : Main.env) (st : Main.state) (ev : Main.event) :
  (count_plays (Main.step e st ev).2 = 0%nat
   ∧ Main.last_sound_play_time (Main.step e st ev).1
     = Main.last_sound_play_time st)
  ∨ (count_plays (Main.step e st ev).2 ≠ 0%nat
     ∧ (Main.debounce_time
        < main_event_time ev - Main.last_sound_play_time st)%Q
     ∧ Main.last_sound_play_time (Main.step e st ev).1 = main_event_time ev).
Proof.
  assert (H : ∀ hand c t,
    (count_plays (Main.chord_logic e st hand c t).2 = 0%nat
     ∧ Main.last_sound_play_time (Main.chord_logic e st hand c t).1
       = Main.last_sound_play_time st)
    ∨ (count_plays (Main.chord_logic e st hand c t).2 ≠ 0%nat
       ∧ (Main.debounce_time < t - Main.last_sound_play_time st)%Q
       ∧ Main.last_sound_play_time (Main.chord_logic e st hand c t).1 = t)).
  { intros hand c t. unfold Main.chord_logic.
    destruct (negb (c =? Main.last_played_fingers st) && Main.pygame_mixer_ok e).
    - destruct (Qlt_bool _ _) eqn:Ht; [|by left].
      apply Qlt_bool_true in Ht.
      destruct (Main.chord_sounds e !! c); [by right|by left].
    - destruct (negb hand && negb (Main.last_played_fingers st =? -1));
        [|by left].
      destruct (Main.pygame_mixer_ok e); by left. }
  destruct ev as [c t|t]; apply H.
Qed.

(** X4. In main.py two chords are never started within the debounce
    time of each other: over any sequence of events, every play comes
    more than 0.3 s after the play before it (the first one after the
    time the state holds). *)
Theorem main_plays_spaced (e : Main.env) (st : Main.state)
    (evs : list Main.event) :
  spaced Main.debounce_time (Main.last_sound_play_time st)
    (main_play_times evs (Main.run e st evs).2).
Proof.
  revert st. induction evs as [|ev evs IH]; intros st; [done|].
  rewrite main_run_cons. cbn [snd]. unfold main_play_times.
  cbn [zip zip_with omap list_omap].
  fold (main_play_times evs (Main.run e (Main.step e st ev).1 evs).2).
  specialize (IH (Main.step e st ev).1).
  destruct (main_step_time e st ev) as [[Hnone Htime]|(Hplay & Hgap & Htime)].
  - rewrite bool_decide_eq_true_2 by done. by rewrite <- Htime.
  - rewrite bool_decide_eq_false_2 by done. cbn [spaced].
    split; [done|]. by rewrite <- Htime.
Qed.

(** X5. After a play main.py leaves the mixer alone for the debounce
    time: with a mixer and [last_played_fingers] other than 0, events
    that all come within 0.3 s of the last play, with or without hand
    and of whatever class, emit nothing and leave the state as it is. *)
Theorem main_quiet_within_debounce (e : Main.env) (st : Main.state)
    (evs : list Main.event)
    (Hok : Main.pygame_mixer_ok e = true)
    (Hlast : Main.last_played_fingers st ≠ 0)
    (Hevs : Forall (λ ev, (main_event_time ev - Main.last_sound_play_time st
                           <= Main.debounce_time)%Q) evs) :
  Main.run e st evs = (st, (λ _, []) <$> evs).
Proof.
  induction Hevs as [|ev evs Hev _ IH]; [done|].
  assert (Hstep : Main.step e st ev = (st, [])).
  { destruct ev as [c t|t]; simpl in *.
    - destruct (decide (c = Main.last_played_fingers st)) as [->|Hne].
      + apply main_chord_logic_same.
      + by apply main_chord_logic_debounced.
    - apply main_chord_logic_debounced; auto. }
  rewrite main_run_cons, Hstep. cbn [fst snd]. by rewrite IH.
Qed.

Lemma main_quiet_within_debounce_witness :
  Main.run all_loaded (main_sounding 1 10)
    [Main.HandPresent 2 (101 # 10); Main.HandAbsent (102 # 10);
     Main.HandPresent 1 (103 # 10)]
  = (main_sounding 1 10,
     (λ _, []) <$> [Main.HandPresent 2 (101 # 10); Main.HandAbsent (102 # 10);
                    Main.HandPresent 1 (103 # 10)]).
Proof.
  apply (main_quiet_within_debounce all_loaded (main_sounding 1 10)).
  - reflexivity.
  - simpl. lia.
  - repeat constructor; vm_compute; discriminate.
Defined.

(** X6. With a mixer, every frame without hand that comes more than
    the debounce time after the last play calls [pygame.mixer.stop()]
    once and plays nothing; [last_played_fingers] goes to -1 when it
    was 0 and to 0 otherwise, so that a run of such frames stops the
    mixer on every frame. *)
Theorem main_hand_absent_stops (e : Main.env) (st : Main.state) (ts : list Q)
    (Hok : Main.pygame_mixer_ok e = true)
    (Hts : Forall (λ t, (Main.debounce_time
                         < t - Main.last_sound_play_time st)%Q) ts) :
  (∀ t, t ∈ ts →
     Main.step e st (Main.HandAbsent t)
     = ({| Main.last_played_fingers :=
             if Main.last_played_fingers st =? 0 then -1 else 0;
           Main.last_sound_play_time := Main.last_sound_play_time st |},
        [Stop]))
  ∧ (Main.run e st (Main.HandAbsent <$> ts)).2 = (λ _, [Stop]) <$> ts.
Proof.
  assert (Hstep : ∀ st' t,
    (Main.debounce_time < t - Main.last_sound_play_time st')%Q →
    Main.step e st' (Main.HandAbsent t)
    = ({| Main.last_played_fingers :=
            if Main.last_played_fingers st' =? 0 then -1 else 0;
          Main.last_sound_play_time := Main.last_sound_play_time st' |},
       [Stop])).
  { intros st' t Ht. simpl.
    destruct (Main.last_played_fingers st' =? 0) eqn:H0.
    - apply Z.eqb_eq in H0. unfold Main.chord_logic.
      rewrite H0, Hok. reflexivity.
    - apply Z.eqb_neq in H0.
      apply main_chord_logic_unmapped; auto using main_chord_sounds_zero. }
  split.
  - intros t Ht. apply Hstep. by eapply Forall_forall in Hts.
  - revert st Hts. induction ts as [|t ts IH]; intros st Hts; [done|].
    apply Forall_cons in Hts as [Ht Hts].
    rewrite fmap_cons, main_run_cons, (Hstep st t Ht). cbn [fst snd].
    rewrite fmap_cons. f_equal. by apply IH.
Qed.

Lemma main_hand_absent_stops_witness :
  (∀ t, t ∈ [1; 2; 3]%Q →
     Main.step all_loaded Main.initial_state (Main.HandAbsent t)
     = ({| Main.last_played_fingers :=
             if Main.last_played_fingers Main.initial_state =? 0 then -1 else 0;
           Main.last_sound_play_time :=
             Main.last_sound_play_time Main.initial_state |},
        [Stop]))
  ∧ (Main.run all_loaded Main.initial_state (Main.HandAbsent <$> [1; 2; 3]%Q)).2
    = (λ _, [Stop]) <$> [1; 2; 3]%Q.
Proof.
  apply (main_hand_absent_stops all_loaded Main.initial_state [1; 2; 3]%Q).
  - reflexivity.
  - repeat constructor; vm_compute; reflexivity.
Defined.

(** ** The player of sample.py over a run *)

(** The two outcomes of a step of sample.py. *)
Lemma sample_step_cases (self : Sample.player) (ev : Sample.event) :
  Sample.step self ev = (self, [])
  ∨ ∃ c t,
      ev = Sample.HandPresent c t
      ∧ 0 < c
      ∧ is_Some (Sample.chords self !! c)
      ∧ (Sample.last_played_chord self ≠ Some c
         ∨ Sample.chord_cooldown self < t - Sample.last_play_time self)
      ∧ Sample.step self ev
        = ({| Sample.chords := Sample.chords self;
              Sample.last_played_chord := Some c;
              Sample.chord_cooldown := Sample.chord_cooldown self;
              Sample.last_play_time := t |},
           [Stop; Play c]).
Proof.
  destruct ev as [c t|]; [|by left]. simpl.
  destruct (0 <? c) eqn:Hpos; [|by left]. apply Z.ltb_lt in Hpos.
  unfold Sample.play_chord.
  destruct (bool_decide (is_Some (Sample.chords self !! c))) eqn:Hc;
    [|by left].
  apply bool_decide_eq_true in Hc.
  destruct (bool_decide (Sample.last_played_chord self = Some c)) eqn:Hlast;
    simpl.
  - destruct (Sample.chord_cooldown self <? t - Sample.last_play_time self)
      eqn:Ht; [|by left].
    apply Z.ltb_lt in Ht. right. exists c, t. by auto 10.
  - apply bool_decide_eq_false in Hlast. right. exists c, t. by auto 10.
Qed.

Lemma sample_plays_cons (ev : Sample.event) (evs : list Sample.event)
    (acts : list action) (trace : list (list action)) :
  sample_plays (ev :: evs) (acts :: trace)
  = match ev with
    | Sample.HandPresent _ t => plays_at t acts
    | Sample.HandAbsent => []
    end ++ sample_plays evs trace.
Proof. reflexivity. Qed.

(** X7. In sample.py a chord is started again only after its
    cooldown: over any sequence of events, every play is of another
    class than the play before it or comes more than the cooldown
    after it. *)
Theorem sample_plays_cooled (self : Sample.player) (evs : list Sample.event) :
  cooled (Sample.chord_cooldown self) (Sample.last_played_chord self)
    (Sample.last_play_time self)
    (sample_plays evs (Sample.run self evs).2).
Proof.
  revert self. induction evs as [|ev evs IH]; intros self; [done|].
  rewrite sample_run_cons. cbn [snd]. rewrite sample_plays_cons.
  specialize (IH (Sample.step self ev).1).
  destruct (sample_step_cases self ev)
    as [Hstep|(c & t & -> & _ & _ & Hnew & Hstep)];
    rewrite Hstep in *; cbn [fst snd] in *.
  - by destruct ev.
  - cbn [plays_at omap list_omap app]. cbn [cooled]. split; [done|].
    exact IH.
Qed.

(** X8. sample.py stops the mixer only to start a chord: every step
    emits nothing or a stop followed by one play, so a run has as many
    stop calls as play calls; a frame without hand, a count of 0 and
    an unmapped count never silence what is sounding. *)
Theorem sample_stops_only_to_play (self : Sample.player)
    (evs : list Sample.event) :
  Forall (λ acts, acts = [] ∨ ∃ c, acts = [Stop; Play c]) (Sample.run self evs).2
  ∧ count_stops (concat (Sample.run self evs).2)
    = count_plays (concat (Sample.run self evs).2).
Proof.
  revert self. induction evs as [|ev evs IH]; intros self.
  - split; [constructor|done].
  - rewrite sample_run_cons. cbn [snd concat].
    destruct (IH (Sample.step self ev).1) as [IHshape IHcount].
    unfold count_stops, count_plays in *.
    rewrite !filter_app, !length_app, IHcount.
    destruct (sample_step_cases self ev)
      as [Hstep|(c & t & _ & _ & _ & _ & Hstep)]; rewrite Hstep; cbn [fst snd].
    + rewrite Hstep in IHshape. split; [constructor; auto|done].
    + rewrite Hstep in IHshape. split; [constructor; eauto|done].
Qed.

(** X9. Over any run of sample.py the chord table and the cooldown of
    the player do not change, [last_played_chord] stays [None] or a
    positive class of the table, and once a chord was played it never
    returns to [None]: the player has no way back to idle. *)
Theorem sample_player_invariant (self : Sample.player)
    (evs : list Sample.event)
    (Hself : ∀ c, Sample.last_played_chord self = Some c →
               0 < c ∧ is_Some (Sample.chords self !! c)) :
  let self' := (Sample.run self evs).1 in
  Sample.chords self' = Sample.chords self
  ∧ Sample.chord_cooldown self' = Sample.chord_cooldown self
  ∧ (∀ c, Sample.last_played_chord self' = Some c →
       0 < c ∧ is_Some (Sample.chords self' !! c))
  ∧ (is_Some (Sample.last_played_chord self) →
     is_Some (Sample.last_played_chord self')).
Proof.
  simpl. revert self Hself.
  induction evs as [|ev evs IH]; intros self Hself; [by auto|].
  rewrite sample_run_cons. cbn [fst].
  destruct (sample_step_cases self ev)
    as [Hstep|(c & t & _ & Hpos & Hc & _ & Hstep)]; rewrite Hstep; cbn [fst].
  - by apply IH.
  - destruct (IH (Sample.Player (Sample.chords self) (Some c)
                    (Sample.chord_cooldown self) t))
      as (Hchords & Hcool & Hlast & Hsome).
    { simpl. by intros c' [= <-]. }
    simpl in *. split; [done|]. split; [done|]. split; [done|].
    intros _. apply Hsome. by exists c.
Qed.

Lemma sample_player_invariant_witness :
  let self' := (Sample.run Sample.init
                  [Sample.HandPresent 2 0; Sample.HandAbsent;
                   Sample.HandPresent 0 5000; Sample.HandPresent 7 9000]).1 in
  Sample.chords self' = Sample.chords Sample.init
  ∧ Sample.chord_cooldown self' = Sample.chord_cooldown Sample.init
  ∧ (∀ c, Sample.last_played_chord self' = Some c →
       0 < c ∧ is_Some (Sample.chords self' !! c))
  ∧ (is_Some (Sample.last_played_chord Sample.init) →
     is_Some (Sample.last_played_chord self')).
Proof.
  apply (sample_player_invariant Sample.init).
  simpl. intros c Hc. discriminate.
Defined.

(** ** The two finger counts *)

(** X10. Both finger counts read landmark 20: on a list of fewer than
    21 landmarks they raise, on 21 or more they return. *)
Theorem counts_return_iff_21 (lm : hand_landmarks) :
  (is_Some (Main.count_fingers lm) ↔ (21 ≤ length lm)%nat)
  ∧ (is_Some (Sample.count_extended_fingers lm) ↔ (21 ≤ length lm)%nat).
Proof.
  split; split.
  - intros Hsome. destruct (decide (21 ≤ length lm)%nat) as [|Hshort]; [done|].
    exfalso. revert Hsome.
    unfold Main.count_fingers, Main.finger_tips, Main.finger_pips.
    simpl zip. simpl Main.count_loop.
    rewrite (landmark_y_ge lm 20) by lia.
    repeat (destruct (landmark_y lm _); simpl; try by intros [? ?]).
  - intros Hlen.
    unfold Main.count_fingers, Main.finger_tips, Main.finger_pips,
      Main.thumb_tip, Main.thumb_ip, Main.thumb_mcp.
    simpl zip. simpl Main.count_loop.
    rewrite !landmark_y_lt by lia. simpl.
    destruct (Qlt_bool (ClassifierSpec.y_at lm 4) (ClassifierSpec.y_at lm 3));
      simpl; by eexists.
  - intros Hsome. destruct (decide (21 ≤ length lm)%nat) as [|Hshort]; [done|].
    exfalso. revert Hsome.
    unfold Sample.count_extended_fingers, Sample.finger_tips.
    simpl Sample.count_loop.
    rewrite (landmark_y_ge lm 20) by lia.
    repeat (destruct (landmark_y lm _); simpl; try by intros [? ?]).
  - intros Hlen.
    unfold Sample.count_extended_fingers, Sample.finger_tips.
    simpl Sample.count_loop.
    rewrite !landmark_y_lt by lia. simpl. by eexists.
Qed.

(** X11. On the same hand the count of main.py is the count of
    sample.py plus one for an extended thumb: the joints [tip - 2] of
    sample.py are the PIP joints 6, 10, 14, 18 of main.py. *)
Theorem main_count_is_sample_plus_thumb (lm : hand_landmarks)
    (Hlen : (21 ≤ length lm)%nat) :
  ∃ s : Z,
    Sample.count_extended_fingers lm = Some s
    ∧ Main.count_fingers lm
      = Some (s + if ClassifierSpec.extended lm ClassifierSpec.Thumb
                  then 1 else 0).
Proof.
  unfold Sample.count_extended_fingers, Sample.finger_tips,
    Main.count_fingers, Main.finger_tips, Main.finger_pips,
    Main.thumb_tip, Main.thumb_ip, Main.thumb_mcp.
  simpl zip. simpl Main.count_loop. simpl Sample.count_loop.
  rewrite !landmark_y_lt by lia. simpl.
  eexists. split; [reflexivity|].
  destruct (Qlt_bool (ClassifierSpec.y_at lm 4) (ClassifierSpec.y_at lm 3));
  destruct (Qlt_bool (ClassifierSpec.y_at lm 4) (ClassifierSpec.y_at lm 2));
    simpl; f_equal; lia.
Qed.

Lemma main_count_is_sample_plus_thumb_witness :
  ∃ s : Z,
    Sample.count_extended_fingers open_hand = Some s
    ∧ Main.count_fingers open_hand
      = Some (s + if ClassifierSpec.extended open_hand ClassifierSpec.Thumb
                  then 1 else 0).
Proof. apply (main_count_is_sample_plus_thumb open_hand). simpl. lia. Defined.

(** X12. The finger count of main.py depends on the y coordinates of
    the landmarks 2, 3, 4, 6, 8, 10, 12, 14, 16, 18 and 20 only: the x
    coordinates, the wrist and the other joints, and landmarks past
    the 21st do not matter. *)
Theorem main_count_reads (lm lm' : hand_landmarks)
    (Hsame : ∀ i : nat, i ∈ [2; 3; 4; 6; 8; 10; 12; 14; 16; 18; 20]%nat →
               landmark_y lm' i = landmark_y lm i) :
  Main.count_fingers lm' = Main.count_fingers lm.
Proof.
  unfold Main.count_fingers, Main.finger_tips, Main.finger_pips,
    Main.thumb_tip, Main.thumb_ip, Main.thumb_mcp.
  simpl zip. simpl Main.count_loop.
  by rewrite !Hsame by (rewrite !elem_of_cons; tauto).
Qed.

Lemma main_count_reads_witness :
  Main.count_fingers open_hand_moved = Main.count_fingers open_hand.
Proof.
  apply (main_count_reads open_hand open_hand_moved).
  intros i Hi. rewrite !elem_of_cons, elem_of_nil in Hi.
  repeat (destruct Hi as [->|Hi]; [reflexivity|]). destruct Hi.
Defined.

(** ** The loops *)

(** X13. A session of main.py is the frame loop over the frames that
    were read, up to and with the frame of the quit key: failed reads
    are passed over without any effect, and nothing that comes after
    the quit key is handled. *)
Theorem main_session_frames (e : Main.env) (st : Main.state)
    (caps : list MainSession.capture) :
  MainSession.session e st caps
  = Main.main_loop e st (MainSession.frames_handled caps).
Proof.
  revert st. induction caps as [|[|frame t key] caps IH]; intros st; [done| |].
  - simpl. apply IH.
  - cbn [MainSession.session MainSession.frames_handled].
    rewrite main_loop_cons.
    destruct (Main.loop_body e st frame t) as [[[st1 acts] shown]|]; [|done].
    cbn [mbind option_bind].
    destruct (MainSession.quit_key key); [done|]. by rewrite IH.
Qed.

(** X14. The key tests look at the low byte of the key code: main.py
    quits exactly on the codes that are 113 ('q') modulo 256 and
    sample.py on those that are 27 (ESC) modulo 256; the code -1 of
    "no key" does neither. *)
Theorem key_tests_low_byte (key : Z) :
  (MainSession.quit_key key = true ↔ key mod 256 = 113)
  ∧ (SampleSession.esc_key key = true ↔ key mod 256 = 27)
  ∧ MainSession.quit_key (-1) = false
  ∧ SampleSession.esc_key (-1) = false.
Proof.
  assert (Hland : Z.land key 255 = key mod 256).
  { change 255 with (Z.ones 8). by rewrite Z.land_ones. }
  unfold MainSession.quit_key, SampleSession.esc_key.
  rewrite Hland, !Z.eqb_eq. done.
Qed.

Lemma main_loop_body_event (e : Main.env) (st : Main.state)
    (frame : option hand_landmarks) (t : Q) :
  Main.loop_body e st frame t
  = (ev ← MainSession.event_of (frame, t);
     Some ((Main.step e st ev).1, (Main.step e st ev).2,
           Main.classification ev)).
Proof.
  unfold Main.loop_body, MainSession.event_of. cbn [fst snd].
  destruct frame as [lm|].
  - destruct (Main.count_fingers lm) as [c|]; [|done].
    cbn [mbind option_bind Main.step Main.classification].
    rewrite bool_decide_eq_true_2 by by eexists.
    by destruct (Main.chord_logic e st true c t).
  - cbn [mbind option_bind Main.step Main.classification].
    rewrite bool_decide_eq_false_2 by by intros [? ?].
    by destruct (Main.chord_logic e st false 0 t).
Qed.

(** X15. Over frames whose hands have at most 21 landmarks, the frame
    loop of main.py is the chord logic run over the events of its
    frames (the finger count of the hand, 0 without hand), and the
    count it shows for a frame is the class of its event; it raises
    exactly when counting the fingers of some frame raises.  (On such
    hands the drawing between the counting and the chord logic adds no
    failure of its own.) *)
Theorem main_loop_is_run (e : Main.env) (st : Main.state)
    (frames : list (option hand_landmarks * Q))
    (Hframes : Forall (λ f, ∀ lm, f.1 = Some lm → (length lm ≤ 21)%nat) frames) :
  Main.main_loop e st frames
  = (evs ← mapM MainSession.event_of frames;
     Some ((Main.run e st evs).1,
           zip (Main.run e st evs).2 (Main.classification <$> evs))).
Proof.
  revert st. induction Hframes as [|[frame t] frames _ _ IH]; intros st; [done|].
  rewrite main_loop_cons, main_loop_body_event. cbn [mapM].
  destruct (MainSession.event_of (frame, t)) as [ev|]; [|done].
  cbn [mbind option_bind]. rewrite IH.
  destruct (mapM MainSession.event_of frames) as [evs|]; [|done].
  cbn [mbind option_bind mret option_ret].
  by rewrite main_run_cons.
Qed.

Lemma main_loop_is_run_witness :
  Main.main_loop all_loaded Main.initial_state
    [(Some open_hand, 10%Q); (None, 11%Q); (Some (tail open_hand), 12%Q)]
  = (evs ← mapM MainSession.event_of
             [(Some open_hand, 10%Q); (None, 11%Q);
              (Some (tail open_hand), 12%Q)];
     Some ((Main.run all_loaded Main.initial_state evs).1,
           zip (Main.run all_loaded Main.initial_state evs).2
               (Main.classification <$> evs))).
Proof.
  apply (main_loop_is_run all_loaded Main.initial_state).
  repeat apply Forall_cons_2; try apply Forall_nil_2;
    simpl; intros lm Hlm; try discriminate;
    injection Hlm as <-; simpl; lia.
Defined.

Lemma sample_run_loop_exit (self : Sample.player)
    (inputs : list SampleSession.input) :
  SampleSession.run_loop self true inputs = Some (self, []).
Proof. induction inputs as [|[| |hands key] inputs IH]; by simpl. Qed.

(** X16. The loop of sample.py handles nothing after a signal, a
    failed read or the frame of the ESC key: what follows them does
    not change the result.  (In main.py a failed read is passed over
    and the loop goes on.) *)
Theorem sample_run_loop_ends (self : Sample.player) (should_exit : bool)
    (pre post : list SampleSession.input) :
  SampleSession.run_loop self should_exit (pre ++ SampleSession.Signal :: post)
    = SampleSession.run_loop self should_exit pre
  ∧ SampleSession.run_loop self should_exit
      (pre ++ SampleSession.ReadFailed :: post)
    = SampleSession.run_loop self should_exit pre
  ∧ (∀ hands key, SampleSession.esc_key key = true →
       SampleSession.run_loop self should_exit
         (pre ++ SampleSession.Captured hands key :: post)
       = SampleSession.run_loop self should_exit
           (pre ++ [SampleSession.Captured hands key])).
Proof.
  revert self should_exit.
  induction pre as [|[| |hands' key'] pre IH]; intros self should_exit.
  - cbn [app]. split; [|split].
    + simpl. apply sample_run_loop_exit.
    + done.
    + intros hands key Hesc. simpl. rewrite Hesc.
      by destruct should_exit, (Sample.process_hands self hands) as [[? ?]|].
  - cbn [app SampleSession.run_loop]. apply IH.
  - cbn [app SampleSession.run_loop]. by auto.
  - cbn [app SampleSession.run_loop].
    destruct should_exit; [by auto|].
    destruct (Sample.process_hands self hands') as [[self1 acts]|]; [|by auto].
    cbn [mbind option_bind].
    destruct (SampleSession.esc_key key'); [by auto|].
    destruct (IH self1 false) as (-> & -> & Hesc).
    split; [done|]. split; [done|].
    intros hands key Hkey. by rewrite (Hesc hands key Hkey).
Qed.

Lemma sample_run_loop_ends_witness :
  SampleSession.run_loop Sample.init false
    ([SampleSession.Captured [(open_hand, 0)] (-1)]
       ++ SampleSession.Captured [] 27
       :: [SampleSession.Captured [(open_hand, 5000)] (-1)])
  = SampleSession.run_loop Sample.init false
      ([SampleSession.Captured [(open_hand, 0)] (-1)]
         ++ [SampleSession.Captured [] 27]).
Proof.
  apply (sample_run_loop_ends Sample.init false
           [SampleSession.Captured [(open_hand, 0)] (-1)]
           [SampleSession.Captured [(open_hand, 5000)] (-1)]).
  reflexivity.
Defined.

(** X17. Handling the hands of a frame in sample.py is the play logic
    run over their finger counts, each with its clock reading; it
    raises exactly when counting the fingers of some hand raises. *)
Theorem sample_process_hands_is_run (self : Sample.player)
    (hands : list (hand_landmarks * Z)) :
  Sample.process_hands self hands
  = (evs ← mapM sample_event_of hands;
     Some ((Sample.run self evs).1, concat (Sample.run self evs).2)).
Proof.
  revert self. induction hands as [|[lm t] hands IH]; intros self; [done|].
  rewrite sample_process_hands_cons. cbn [mapM].
  change (sample_event_of (lm, t))
    with (n ← Sample.count_extended_fingers lm;
          Some (Sample.HandPresent n t)).
  destruct (Sample.count_extended_fingers lm) as [n|]; [|done].
  cbn [mbind option_bind]. rewrite IH.
  destruct (mapM sample_event_of hands) as [evs|]; [|done].
  cbn [mbind option_bind mret option_ret].
  by rewrite sample_run_cons.
Qed.

(** ** State and mixer *)

Lemma mixer_run_app (playing : list Z) (acts acts' : list action) :
  mixer_run playing (acts ++ acts') = mixer_run (mixer_run playing acts) acts'.
Proof. apply foldl_app. Qed.

(** One step of main.py keeps in the mixer nothing but the class of
    [last_played_fingers]. *)
Lemma main_step_mixer (e : Main.env) (st : Main.state) (ev : Main.event)
    (playing : list Z) :
  (∀ c, c ∈ playing →
     c = Main.last_played_fingers st ∧ is_Some (Main.chord_sounds e !! c)) →
  ∀ c, c ∈ mixer_run playing (Main.step e st ev).2 →
    c = Main.last_played_fingers (Main.step e st ev).1
    ∧ is_Some (Main.chord_sounds e !! c).
Proof.
  intros Hplaying.
  assert (H : ∀ hand c0 t c,
    c ∈ mixer_run playing (Main.chord_logic e st hand c0 t).2 →
    c = Main.last_played_fingers (Main.chord_logic e st hand c0 t).1
    ∧ is_Some (Main.chord_sounds e !! c)).
  { intros hand c0 t c. unfold Main.chord_logic.
    destruct (negb (c0 =? Main.last_played_fingers st) && Main.pygame_mixer_ok e).
    - destruct (Qlt_bool _ _); [|apply Hplaying].
      destruct (Main.chord_sounds e !! c0) as [s|] eqn:Hc0; cbn.
      + intros ->%list_elem_of_singleton. split; [done|]. by rewrite Hc0.
      + by intros ?%elem_of_nil.
    - destruct (negb hand && negb (Main.last_played_fingers st =? -1));
        [|apply Hplaying].
      destruct (Main.pygame_mixer_ok e) eqn:Hok; cbn.
      + by intros ?%elem_of_nil.
      + intros Hc. destruct (Hplaying c Hc) as [_ [s Hs]].
        by rewrite main_chord_sounds_no_mixer in Hs. }
  destruct ev; apply H.
Qed.

(** X18. In main.py no other chord sounds than the one the state
    names: when every sound in the mixer is of the class of
    [last_played_fingers], a class that has a sound, the same is true
    after any sequence of events.  (The sound may have ended by
    itself; it is never of another class.) *)
Theorem main_mixer_within_state (e : Main.env) (st : Main.state)
    (playing : list Z) (evs : list Main.event)
    (Hstart : ∀ c, c ∈ playing →
                c = Main.last_played_fingers st
                ∧ is_Some (Main.chord_sounds e !! c)) :
  ∀ c, c ∈ mixer_run playing (concat (Main.run e st evs).2) →
    c = Main.last_played_fingers (Main.run e st evs).1
    ∧ is_Some (Main.chord_sounds e !! c).
Proof.
  revert st playing Hstart.
  induction evs as [|ev evs IH]; intros st playing Hstart; [done|].
  rewrite main_run_cons. cbn [fst snd concat]. rewrite mixer_run_app.
  apply IH. by apply main_step_mixer.
Qed.

Lemma main_mixer_within_state_witness :
  Forall (λ c, c = Main.last_played_fingers
                     (Main.run all_loaded (main_sounding 1 0)
                        [Main.HandPresent 1 1; Main.HandPresent 2 2]).1
               ∧ is_Some (Main.chord_sounds all_loaded !! c))
    (mixer_run [1]
       (concat (Main.run all_loaded (main_sounding 1 0)
                  [Main.HandPresent 1 1; Main.HandPresent 2 2]).2)).
Proof.
  apply Forall_forall.
  apply (main_mixer_within_state all_loaded (main_sounding 1 0) [1]).
  intros c Hc. apply list_elem_of_singleton in Hc. subst c.
  split; [reflexivity|]. vm_compute. eauto.
Defined.

(** X19. In sample.py no other chord sounds than the one the player
    names: when every sound in the mixer is of the class of
    [last_played_chord], the same is true after any sequence of
    events. *)
Theorem sample_mixer_within_player (self : Sample.player)
    (playing : list Z) (evs : list Sample.event)
    (Hstart : ∀ c, c ∈ playing → Sample.last_played_chord self = Some c) :
  ∀ c, c ∈ mixer_run playing (concat (Sample.run self evs).2) →
    Sample.last_played_chord (Sample.run self evs).1 = Some c.
Proof.
  revert self playing Hstart.
  induction evs as [|ev evs IH]; intros self playing Hstart; [done|].
  rewrite sample_run_cons. cbn [fst snd concat]. rewrite mixer_run_app.
  apply IH.
  destruct (sample_step_cases self ev)
    as [Hstep|(c0 & t & _ & _ & _ & _ & Hstep)]; rewrite Hstep; cbn.
  - done.
  - by intros c ->%list_elem_of_singleton.
Qed.

Lemma sample_mixer_within_player_witness :
  Forall (λ c, Sample.last_played_chord
                 (Sample.run (sample_sounding 1 0)
                    [Sample.HandPresent 1 100; Sample.HandAbsent;
                     Sample.HandPresent 2 200]).1 = Some c)
    (mixer_run [1]
       (concat (Sample.run (sample_sounding 1 0)
                  [Sample.HandPresent 1 100; Sample.HandAbsent;
                   Sample.HandPresent 2 200]).2)).
Proof.
  apply Forall_forall.
  apply (sample_mixer_within_player (sample_sounding 1 0) [1]).
  intros c Hc. apply list_elem_of_singleton in Hc. subst c. reflexivity.
Defined.
